(** * ORD scraper: a shallow embedding of [ord_scraper.py] and its properties

    The development follows the script top-down in the order of the source:
    Python strings and values, the exception discipline, the HTTP session as
    an explicit world, the query submitter and the result poller, the record
    decoder, the extractor, and finally the orchestrator and the argument
    normalisation done by [main].

    Conventions.
    - A Python [str] is modelled by the [string] of its UTF-8 bytes.
      [strip] removes the white-space characters of Unicode; [replace], [in],
      [split] and [join] with ASCII arguments act on the bytes as they act on
      the characters.  The case mapping of [lower] is a table of the Python
      runtime, which the model takes as a parameter ([PyStr.Unicode]).
    - Values that travel through JSON (responses of the service, the records
      written to the output) are [pyval]s; a [dict] is an insertion-ordered
      association list with string keys.
    - A computation that may raise returns a [result]; [Raise] carries a
      Python [Exception], [Abort] carries the exit code of a [SystemExit],
      which [except Exception] does not catch.
    - Time is counted in milliseconds on a monotone clock: every GET takes a
      positive amount of time, [time.sleep(s)] advances the clock by [1000*s]. *)

From Stdlib Require Import ZArith NArith List String Ascii Bool Lia Permutation.
From Stdlib Require Import DecimalString.
Import ListNotations.
Local Open Scope string_scope.
Local Open Scope Z_scope.
Local Open Scope list_scope.

Set Implicit Arguments.
Set Warnings "-register-all".

(** ** Python strings *)

Module PyStr.

Definition quote : ascii := ascii_of_nat 34.

(** [str.lower] where the string is ASCII: A..Z go to a..z. *)
Definition lower_char (c : ascii) : ascii :=
  let n := N_of_ascii c in
  if ((65 <=? n) && (n <=? 90))%N then ascii_of_N (n + 32) else c.

Fixpoint ascii_lower (s : string) : string :=
  match s with
  | EmptyString => EmptyString
  | String c r => String (lower_char c) (ascii_lower r)
  end.

Definition is_ascii_char (c : ascii) : bool := (N_of_ascii c <? 128)%N.

Fixpoint is_ascii (s : string) : bool :=
  match s with
  | EmptyString => true
  | String c r => is_ascii_char c && is_ascii r
  end.

(** [s.lower()] on the UTF-8 bytes of [s].  The case table of Unicode belongs
    to the Python runtime, not to the script; what is known of it here is
    that on an ASCII string it lowers the letters A..Z and nothing else. *)
Class Unicode : Type := {
  lower : string -> string;
  lower_ascii : forall s, is_ascii s = true -> lower s = ascii_lower s
}.

(** [s.replace(a, b)] for one-character [a] and [b]. *)
Fixpoint replace_char (a b : ascii) (s : string) : string :=
  match s with
  | EmptyString => EmptyString
  | String c r => String (if Ascii.eqb c a then b else c) (replace_char a b r)
  end.

Fixpoint lstrip_by (p : ascii -> bool) (s : string) : string :=
  match s with
  | EmptyString => EmptyString
  | String c r => if p c then lstrip_by p r else s
  end.

Fixpoint rstrip_by (p : ascii -> bool) (s : string) : string :=
  match s with
  | EmptyString => EmptyString
  | String c r =>
      match rstrip_by p r with
      | EmptyString => if p c then EmptyString else String c EmptyString
      | r' => String c r'
      end
  end.

Definition strip_by (p : ascii -> bool) (s : string) : string :=
  rstrip_by p (lstrip_by p s).

(** The characters [str.isspace] holds of, which [str.strip()] removes, each
    as its UTF-8 bytes: U+0009..000D, U+001C..001F, U+0020, U+0085, U+00A0,
    U+1680, U+2000..200A, U+2028, U+2029, U+202F, U+205F and U+3000. *)
Definition whitespace : list (list ascii) :=
  map (map ascii_of_N)
      [[9]; [10]; [11]; [12]; [13]; [28]; [29]; [30]; [31]; [32];
       [194; 133]; [194; 160]; [225; 154; 128];
       [226; 128; 128]; [226; 128; 129]; [226; 128; 130]; [226; 128; 131];
       [226; 128; 132]; [226; 128; 133]; [226; 128; 134]; [226; 128; 135];
       [226; 128; 136]; [226; 128; 137]; [226; 128; 138];
       [226; 128; 168]; [226; 128; 169]; [226; 128; 175];
       [226; 129; 159]; [227; 128; 128]]%N.

Fixpoint starts_with (p s : list ascii) : bool :=
  match p, s with
  | [], _ => true
  | a :: p', b :: s' => Ascii.eqb a b && starts_with p' s'
  | _ :: _, [] => false
  end.

(** The entry of [table] that [s] starts with, if any. *)
Definition leading (table : list (list ascii)) (s : list ascii)
  : option (list ascii) :=
  find (fun p => starts_with p s) table.

(** Characters of [table] are taken off the front one at a time; every turn
    takes at least a byte, so a [fuel] of the length of [s] is enough. *)
Fixpoint lstrip_loop (table : list (list ascii)) (fuel : nat) (s : list ascii)
  : list ascii :=
  match fuel with
  | O => s
  | S fuel' =>
      match leading table s with
      | Some p => lstrip_loop table fuel' (skipn (List.length p) s)
      | None => s
      end
  end.

Definition lstrip_bytes (table : list (list ascii)) (s : list ascii)
  : list ascii :=
  lstrip_loop table (List.length s) s.

(** The same from the back: the bytes and the table are reversed. *)
Definition rstrip_bytes (table : list (list ascii)) (s : list ascii)
  : list ascii :=
  rev (lstrip_bytes (map (@rev ascii) table) (rev s)).

(** [s.strip()] *)
Definition strip (s : string) : string :=
  string_of_list_ascii
    (rstrip_bytes whitespace
                  (lstrip_bytes whitespace (list_ascii_of_string s))).

(** [s.strip(c)] for a one-character argument. *)
Definition strip_char (c : ascii) (s : string) : string :=
  strip_by (Ascii.eqb c) s.

(** [sub in s] *)
Fixpoint contains (sub s : string) : bool :=
  if String.prefix sub s then true
  else match s with
       | EmptyString => false
       | String _ r => contains sub r
       end.

(** [sep.join(l)] *)
Fixpoint join (sep : string) (l : list string) : string :=
  match l with
  | [] => EmptyString
  | [x] => x
  | x :: r => (x ++ sep ++ join sep r)%string
  end.

(** [s.split(",")]: the fields between the separators, never empty as a list. *)
Fixpoint split_on (sep : ascii) (s : string) : list string :=
  match s with
  | EmptyString => [EmptyString]
  | String c r =>
      if Ascii.eqb c sep then EmptyString :: split_on sep r
      else match split_on sep r with
           | [] => [String c EmptyString]
           | f :: fs => String c f :: fs
           end
  end.

Definition nonempty (s : string) : bool :=
  match s with EmptyString => false | _ => true end.

End PyStr.

(** ** Python values *)

Inductive pyval : Type :=
| PNone
| PBool (b : bool)
| PInt (n : Z)
| PStr (s : string)
| PList (l : list pyval)
| PDict (d : list (string * pyval)).

Definition dict := list (string * pyval).

(** [bool(v)] *)
Definition truthy (v : pyval) : bool :=
  match v with
  | PNone => false
  | PBool b => b
  | PInt n => negb (n =? 0)
  | PStr s => PyStr.nonempty s
  | PList l => match l with [] => false | _ => true end
  | PDict d => match d with [] => false | _ => true end
  end.

(** [type(v).__name__] *)
Definition type_name (v : pyval) : string :=
  match v with
  | PNone => "NoneType"
  | PBool _ => "bool"
  | PInt _ => "int"
  | PStr _ => "str"
  | PList _ => "list"
  | PDict _ => "dict"
  end.

(** Association lists with string keys: the part of [dict] the script uses. *)
Section Assoc.
Variable V : Type.

Fixpoint assoc_get (d : list (string * V)) (k : string) : option V :=
  match d with
  | [] => None
  | (k', v) :: r => if String.eqb k' k then Some v else assoc_get r k
  end.

(** [d[k] = f(d[k])] for a key that is present; [None] when it is absent. *)
Fixpoint assoc_update (d : list (string * V)) (k : string) (f : V -> V)
  : option (list (string * V)) :=
  match d with
  | [] => None
  | (k', v) :: r =>
      if String.eqb k' k then Some ((k', f v) :: r)
      else match assoc_update r k f with
           | Some r' => Some ((k', v) :: r')
           | None => None
           end
  end.

(** [d.setdefault(k, v0)] followed by an in-place update of the value. *)
Fixpoint assoc_setdefault_update (d : list (string * V)) (k : string)
         (v0 : V) (f : V -> V) : list (string * V) :=
  match d with
  | [] => [(k, f v0)]
  | (k', v) :: r =>
      if String.eqb k' k then (k', f v) :: r
      else (k', v) :: assoc_setdefault_update r k v0 f
  end.
End Assoc.

(** ** Exceptions and results *)

Inductive exn_kind : Type :=
| AttributeError | TypeError | KeyError | ValueError | ImportError
| HTTPError | RequestException | JSONDecodeError | TimeoutError | LibraryError.

(** An [Exception] instance: its class and [str(e)]. *)
Record exn : Type := Exn { exn_class : exn_kind; exn_str : string }.

Inductive result (A : Type) : Type :=
| Ok (a : A)
| Raise (e : exn)
| Abort (code : Z).
Arguments Ok {A} a.
Arguments Raise {A} e.
Arguments Abort {A} code.

Definition bind {A B} (m : result A) (k : A -> result B) : result B :=
  match m with
  | Ok a => k a
  | Raise e => Raise e
  | Abort c => Abort c
  end.

(** [try: body  except Exception as e: handler(e)] *)
Definition try_except {A} (body : result A) (handler : exn -> result A) : result A :=
  match body with
  | Raise e => handler e
  | r => r
  end.

Declare Scope py_scope.
Delimit Scope py_scope with py.
Notation "x <- m ;; k" := (bind m (fun x => k))
  (at level 100, m at next level, right associativity) : py_scope.
Local Open Scope py_scope.

Definition attribute_error {A} (v : pyval) (attr : string) : result A :=
  Raise (Exn AttributeError
           ("'" ++ type_name v ++ "' object has no attribute '" ++ attr ++ "'")%string).

(** [v.get(k, default)]: only a [dict] has the method. *)
Definition py_get (v : pyval) (k : string) (default : pyval) : result pyval :=
  match v with
  | PDict d => Ok (match assoc_get d k with Some x => x | None => default end)
  | _ => attribute_error v "get"
  end.

(** [len(v)] *)
Definition py_len (v : pyval) : result Z :=
  match v with
  | PStr s => Ok (Z.of_nat (String.length s))
  | PList l => Ok (Z.of_nat (List.length l))
  | PDict d => Ok (Z.of_nat (List.length d))
  | _ => Raise (Exn TypeError
                  ("object of type '" ++ type_name v ++ "' has no len()")%string)
  end.

(** The values a [for] loop over [v] goes through. *)
Definition py_iter (v : pyval) : result (list pyval) :=
  match v with
  | PList l => Ok l
  | PDict d => Ok (map (fun kv => PStr (fst kv)) d)
  | PStr s => Ok (map (fun c => PStr (String c EmptyString)) (list_ascii_of_string s))
  | _ => Raise (Exn TypeError
                  ("'" ++ type_name v ++ "' object is not iterable")%string)
  end.

(** ** The HTTP session as a world

    The remote service is a function of the requests sent so far in the
    session (most recent first): it fixes how long the GET takes, retries of
    the transport adapter included, and how it ends.  The adapter is mounted
    with [raise_on_status=False], so a response whose status stays in the
    retry list comes back as a response; a connection or read failure that
    outlives the retry budget comes back as an exception. *)

Record Request : Type := mkRequest {
  req_url : string;
  req_params : list (string * pyval);
  req_timeout : Z
}.

Record Response : Type := mkResponse {
  status_code : Z;
  text : string;
  json : result pyval      (* what [resp.json()] does *)
}.

Inductive get_outcome : Type :=
| Responded (r : Response)
| Failed (e : exn).

Record World : Type := mkWorld {
  clock : Z;                (* [time.time()], in milliseconds *)
  sent : list Request       (* the requests of the session, most recent first *)
}.

Definition io (A : Type) : Type := World -> World * result A.

Definition ret {A} (a : A) : io A := fun w => (w, Ok a).

Definition lift {A} (r : result A) : io A := fun w => (w, r).

Definition iobind {A B} (m : io A) (k : A -> io B) : io B :=
  fun w =>
    match m w with
    | (w1, Ok a) => k a w1
    | (w1, Raise e) => (w1, Raise e)
    | (w1, Abort c) => (w1, Abort c)
    end.

Notation "x <~ m ;; k" := (iobind m (fun x => k))
  (at level 100, m at next level, right associativity) : py_scope.

(** [time.sleep(ms / 1000)] *)
Definition sleep (ms : Z) (w : World) : World :=
  mkWorld (clock w + ms) (sent w).

Definition API_BASE : string := "https://open-reaction-database.org/api".
Definition REACTION_TIMEOUT_S : Z := 90.

(** [str(n)] for an integer. *)
Definition str_int (n : Z) : string := NilZero.string_of_int (Z.to_int n).

(** ** The external schema library

    [ord_schema] is not part of the script.  The script reaches a decoded
    record only through the attribute accesses listed here; each of them may
    raise, as any attribute access on a foreign object may. *)

Class OrdSchema : Type := {
  Reaction : Type;
  Outcome : Type;
  Product : Type;
  ReactionInput : Type;
  Compound : Type;
  Identifier : Type;
  (** does [from ord_schema.proto import reaction_pb2] succeed *)
  importable : bool;
  (** [base64.b64decode] of an ASCII string, then [Reaction.ParseFromString] *)
  parse_b64 : string -> result Reaction;
  (** [rxn.reaction_id.value] *)
  reaction_id_value : Reaction -> result string;
  (** [rxn.outcomes], a sequence *)
  outcomes : Reaction -> result (list Outcome);
  (** [outcome.reaction_product], a collection *)
  reaction_product : Outcome -> result (list Product);
  (** [rxn.inputs.items()], in the iteration order of the map *)
  inputs_items : Reaction -> result (list (string * ReactionInput));
  (** [reaction_input.components] *)
  components : ReactionInput -> result (list Compound);
  (** [compound.identifiers] *)
  identifiers : Compound -> result (list Identifier);
  (** [ident.value] *)
  value : Identifier -> result string;
  (** [component.reaction_role] *)
  reaction_role : Compound -> result Z;
  (** [reaction_pb2.ReactionRole.Name] *)
  ReactionRole_Name : Z -> result string
}.

Definition CORE_CATEGORIES : list string :=
  ["base"; "solvent"; "amine"; "aryl halide"; "metal"; "ligand"].

Section Scraper.

(** The remote service and the text [requests] puts in an [HTTPError]. *)
Variable service : list Request -> positive * get_outcome.
Variable http_error_msg : Response -> string.

(** The order in which this process iterates the set [CORE_CATEGORIES]. *)
Variable core_order : list string.

Context {schema : OrdSchema}.

(** The case table of the runtime the script runs on. *)
Context {unicode : PyStr.Unicode}.

(** *** Transport *)

(** [session.get(url, params=params, timeout=timeout)] *)
Definition session_get (url : string) (params : list (string * pyval))
           (timeout : Z) : io Response :=
  fun w =>
    let log := mkRequest url params timeout :: sent w in
    let (d, out) := service log in
    (mkWorld (clock w + Z.pos d) log,
     match out with
     | Responded r => Ok r
     | Failed e => Raise e
     end).

(** [resp.raise_for_status()] *)
Definition raise_for_status (resp : Response) : result unit :=
  if (400 <=? status_code resp) && (status_code resp <? 600)
  then Raise (Exn HTTPError (http_error_msg resp))
  else Ok tt.

(** *** Query submitter *)

Definition submit_query (dataset_id : pyval) (limit : pyval) : io string :=
  let url := (API_BASE ++ "/submit_query")%string in
  let params := [("dataset_id", dataset_id); ("limit", limit)] in
  resp <~ session_get url params 30 ;;
  _ <~ lift (raise_for_status resp) ;;
  ret (PyStr.strip_char PyStr.quote (PyStr.strip (text resp))).

(** *** Result poller *)

Definition timeout_error (task_id : string) : exn :=
  Exn TimeoutError
      ("Query result for task=" ++ task_id ++ " timed out after "
         ++ str_int REACTION_TIMEOUT_S ++ "s.")%string.

(** The [while] loop of [fetch_query_result]; [None] when [fuel] runs out. *)
Fixpoint poll (fuel : nat) (task_id : string) (start_time : Z) (w : World)
  : option (World * result pyval) :=
  match fuel with
  | O => None
  | S fuel' =>
      let url := (API_BASE ++ "/fetch_query_result")%string in
      let params := [("task_id", PStr task_id)] in
      if clock w - start_time <? REACTION_TIMEOUT_S * 1000 then
        match session_get url params 30 w with
        | (w1, Ok resp) =>
            if status_code resp =? 200 then
              Some (w1,
                    match json resp with
                    | Raise (Exn JSONDecodeError _) => Ok (PList [])
                    | r => r
                    end)
            else if status_code resp =? 202 then
              poll fuel' task_id start_time (sleep 2000 w1)
            else if (status_code resp =? 400)
                    && PyStr.contains "not ready" (PyStr.lower (text resp)) then
              poll fuel' task_id start_time (sleep 2000 w1)
            else
              match raise_for_status resp with
              | Ok _ => poll fuel' task_id start_time w1
              | Raise e => Some (w1, Raise e)
              | Abort c => Some (w1, Abort c)
              end
        | (w1, Raise e) => Some (w1, Raise e)
        | (w1, Abort c) => Some (w1, Abort c)
        end
      else Some (w, Raise (timeout_error task_id))
  end.

(** Every turn of the loop takes at least a millisecond, so this many turns
    reach the ceiling. *)
Definition poll_fuel : nat := S (Z.to_nat (REACTION_TIMEOUT_S * 1000)).

Definition fetch_query_result (task_id : string) : io pyval :=
  fun w =>
    match poll poll_fuel task_id (clock w) w with
    | Some r => r
    | None => (w, Raise (timeout_error task_id))
    end.

(** *** Record decoder *)

Definition decode_reaction_proto (proto_b64 : pyval) : result Reaction :=
  if importable then
    match proto_b64 with
    | PStr s => parse_b64 s
    | v => Raise (Exn TypeError
                    ("argument should be a bytes-like object or ASCII string, not '"
                       ++ type_name v ++ "'")%string)
    end
  else Abort 1.     (* [sys.exit(1)] *)

(** *** Extractor *)

Fixpoint identifiers_loop (ids : list Identifier) (texts : list string)
  : result (list string) :=
  match ids with
  | [] => Ok texts
  | ident :: rest =>
      v <- value ident ;;
      if PyStr.nonempty v then identifiers_loop rest (texts ++ [v])
      else identifiers_loop rest texts
  end.

Definition extract_identifiers (compound : Compound) : result string :=
  ids <- identifiers compound ;;
  texts <- identifiers_loop ids [] ;;
  Ok (PyStr.join "; " texts).

(** [extracted_roles]: category name to the list of its entries. *)
Definition roles : Type := list (string * list pyval).

Definition comp_data (text_id role_name : string) : pyval :=
  PDict [("value", PStr text_id); ("role", PStr role_name)].

(** [for core_key in CORE_CATEGORIES: ...  break]; the flag is [assigned]. *)
Fixpoint core_loop (keys : list string) (normalized_key : string)
         (cd : pyval) (extracted_roles : roles) : result (bool * roles) :=
  match keys with
  | [] => Ok (false, extracted_roles)
  | core_key :: rest =>
      if PyStr.contains core_key normalized_key then
        match assoc_update extracted_roles core_key (fun l => l ++ [cd]) with
        | Some extracted_roles' => Ok (true, extracted_roles')
        | None => Raise (Exn KeyError ("'" ++ core_key ++ "'")%string)
        end
      else core_loop rest normalized_key cd extracted_roles
  end.

(** The part of the component loop after the identifier check. *)
Definition file_component (normalized_key : string) (cd : pyval)
           (extracted_roles : roles) : result roles :=
  p <- core_loop core_order normalized_key cd extracted_roles ;;
  let (assigned, extracted_roles1) := p in
  if negb assigned
  then Ok (assoc_setdefault_update extracted_roles1 normalized_key []
                                   (fun l => l ++ [cd]))
  else Ok extracted_roles1.

Definition role_name_of (component : Compound) : result string :=
  try_except
    (if importable then
       r <- reaction_role component ;;
       ReactionRole_Name r
     else Raise (Exn ImportError "No module named 'ord_schema'"))
    (fun _ => Ok "UNKNOWN").

Definition component_step (normalized_key : string) (component : Compound)
           (extracted_roles : roles) : result roles :=
  text_id <- extract_identifiers component ;;
  if negb (PyStr.nonempty text_id) then Ok extracted_roles
  else
    role_name <- role_name_of component ;;
    file_component normalized_key (comp_data text_id role_name) extracted_roles.

Fixpoint components_loop (normalized_key : string) (cs : list Compound)
         (extracted_roles : roles) : result roles :=
  match cs with
  | [] => Ok extracted_roles
  | component :: rest =>
      extracted_roles1 <- component_step normalized_key component extracted_roles ;;
      components_loop normalized_key rest extracted_roles1
  end.

Definition normalize_key (input_key : string) : string :=
  PyStr.replace_char "_" " " (PyStr.lower (PyStr.strip input_key)).

Fixpoint inputs_loop (items : list (string * ReactionInput))
         (extracted_roles : roles) : result roles :=
  match items with
  | [] => Ok extracted_roles
  | (input_key, reaction_input) :: rest =>
      let normalized_key := normalize_key input_key in
      cs <- components reaction_input ;;
      extracted_roles1 <- components_loop normalized_key cs extracted_roles ;;
      inputs_loop rest extracted_roles1
  end.

(** [rxn.outcomes and rxn.outcomes[0].reaction_product] as a boolean. *)
Definition outcome_flag (rxn : Reaction) : result bool :=
  os <- outcomes rxn ;;
  match os with
  | [] => Ok false
  | o :: _ =>
      p <- reaction_product o ;;
      Ok (match p with [] => false | _ => true end)
  end.

Definition components_value (extracted_roles : roles) : pyval :=
  PDict (map (fun kv => (fst kv, PList (snd kv))) extracted_roles).

(** [{k: [] for k in CORE_CATEGORIES}] *)
Definition initial_roles : roles := map (fun k => (k, [])) core_order.

Definition extract_reaction_data (rxn : Reaction) (dataset_id : pyval)
  : result pyval :=
  let extracted_roles : roles := initial_roles in
  try_except
    (outcome_successful <- outcome_flag rxn ;;
     items <- inputs_items rxn ;;
     extracted_roles1 <- inputs_loop items extracted_roles ;;
     rid <- reaction_id_value rxn ;;
     Ok (PDict [("dataset_id", dataset_id);
                ("reaction_id", PStr rid);
                ("components", components_value extracted_roles1);
                ("success", PBool outcome_successful)]))
    (fun e =>
       (* the id is read for the warning and again for the record *)
       rid <- reaction_id_value rxn ;;
       Ok (PDict [("dataset_id", dataset_id);
                  ("reaction_id", PStr rid);
                  ("error", PStr (exn_str e))])).

(** *** Orchestrator *)

Definition error_record (dataset_id : pyval) (e : exn) : pyval :=
  PDict [("dataset_id", dataset_id); ("error", PStr (exn_str e))].

(** One turn of [for item in items]: the record to append, if any. *)
Definition item_step (item dataset_id : pyval) : result (option pyval) :=
  proto_b64 <- py_get item "proto" PNone ;;
  if negb (truthy proto_b64) then Ok None
  else
    rxn <- decode_reaction_proto proto_b64 ;;
    data <- extract_reaction_data rxn dataset_id ;;
    Ok (Some data).

(** [all_results] is appended to in place: what was appended before an
    exception stays. *)
Fixpoint items_loop (items : list pyval) (dataset_id : pyval)
         (all_results : list pyval) : list pyval * result unit :=
  match items with
  | [] => (all_results, Ok tt)
  | item :: rest =>
      match item_step item dataset_id with
      | Ok None => items_loop rest dataset_id all_results
      | Ok (Some data) => items_loop rest dataset_id (all_results ++ [data])
      | Raise e => (all_results, Raise e)
      | Abort c => (all_results, Abort c)
      end
  end.

Section Run.
Variable max_datasets : option Z.
Variable per_dataset_limit : Z.

(** The body of the [try] of one dataset. *)
Definition dataset_try (dataset_id num_rxns : pyval) (all_results : list pyval)
  : World -> World * (list pyval * result unit) :=
  fun w =>
    let effective_limit :=
      if per_dataset_limit >? 0 then PInt per_dataset_limit else num_rxns in
    match (task_id <~ submit_query dataset_id effective_limit ;;
           items <~ fetch_query_result task_id ;;
           _ <~ lift (py_len items) ;;
           lift (py_iter items)) w with
    | (w1, Ok items) => (w1, items_loop items dataset_id all_results)
    | (w1, Raise e) => (w1, (all_results, Raise e))
    | (w1, Abort c) => (w1, (all_results, Abort c))
    end.

(** [max_datasets is not None and processed_count >= max_datasets] *)
Definition limit_reached (processed_count : Z) : bool :=
  match max_datasets with
  | Some m => processed_count >=? m
  | None => false
  end.

(** [for ds in datasets]; returns [all_results] and [processed_count]. *)
Fixpoint datasets_loop (datasets : list pyval) (all_results : list pyval)
         (processed_count : Z) : io (list pyval * Z) :=
  match datasets with
  | [] => ret (all_results, processed_count)
  | ds :: rest =>
      dataset_id <~ lift (py_get ds "dataset_id" PNone) ;;
      num_rxns <~ lift (py_get ds "num_reactions" (PInt 0)) ;;
      if limit_reached processed_count then ret (all_results, processed_count)
      else
        fun w =>
          let '(w1, (all_results1, r)) :=
            dataset_try dataset_id num_rxns all_results w in
          match r with
          | Ok _ =>
              datasets_loop rest all_results1 (processed_count + 1)
                            (sleep 1000 w1)
          | Raise e =>
              datasets_loop rest (all_results1 ++ [error_record dataset_id e])
                            processed_count (sleep 1000 w1)
          | Abort c => (w1, Abort c)
          end
  end.

(** [v in dataset_ids] for a list of strings. *)
Definition in_ids (v : pyval) (dataset_ids : list string) : bool :=
  match v with
  | PStr s => existsb (String.eqb s) dataset_ids
  | _ => false
  end.

Fixpoint filter_loop (ds : list pyval) (dataset_ids : list string)
  : result (list pyval) :=
  match ds with
  | [] => Ok []
  | d :: rest =>
      v <- py_get d "dataset_id" PNone ;;
      kept <- filter_loop rest dataset_ids ;;
      Ok (if in_ids v dataset_ids then d :: kept else kept)
  end.

(** The dataset list after the optional allow-list. *)
Definition select_datasets (datasets : pyval) (dataset_ids : option (list string))
  : result pyval :=
  match dataset_ids with
  | Some (i :: ids) =>
      ds <- py_iter datasets ;;
      kept <- filter_loop ds (i :: ids) ;;
      Ok (PList kept)
  | _ => Ok datasets
  end.

Definition scrape_ord_advanced (dataset_ids : option (list string))
  : io (list pyval) :=
  resp <~ session_get (API_BASE ++ "/datasets")%string [] 30 ;;
  datasets <~ lift (json resp) ;;
  datasets <~ lift (select_datasets datasets dataset_ids) ;;
  _ <~ lift (py_len datasets) ;;
  dss <~ lift (py_iter datasets) ;;
  r <~ datasets_loop dss [] 0 ;;
  ret (fst r).
End Run.

(** *** The arguments as [main] hands them over *)

Record Args : Type := mkArgs {
  arg_max_datasets : Z;
  arg_per_dataset_limit : Z;
  arg_dataset_ids : option string
}.

Definition main_ds_ids (args : Args) : option (list string) :=
  match arg_dataset_ids args with
  | Some s =>
      if PyStr.nonempty s
      then Some (filter PyStr.nonempty (map PyStr.strip (PyStr.split_on "," s)))
      else None
  | None => None
  end.

Definition ids_given (ds_ids : option (list string)) : bool :=
  match ds_ids with
  | Some (_ :: _) => true
  | _ => false
  end.

Definition main_max_datasets (args : Args) : option Z :=
  if (arg_max_datasets args =? 0) && negb (ids_given (main_ds_ids args))
  then None
  else Some (arg_max_datasets args).

(** [main] up to the dump of the rows: [Ok rows] are the rows written,
    an exception of the run ends in [sys.exit(1)]. *)
Definition main (args : Args) : io (list pyval) :=
  fun w =>
    match scrape_ord_advanced (main_max_datasets args)
                              (arg_per_dataset_limit args)
                              (main_ds_ids args) w with
    | (w1, Raise _) => (w1, Abort 1)
    | r => r
    end.

End Scraper.

(** ** A concrete schema and concrete services, to run the model *)

Module Demo.

(** A runtime whose case table is the ASCII one. *)
#[export] Instance unicode : PyStr.Unicode :=
  {| PyStr.lower := PyStr.ascii_lower;
     PyStr.lower_ascii := fun s _ => eq_refl |}.

Record DemoCompound : Type := mkCompound {
  dc_identifiers : list string;
  dc_role : Z
}.

Record DemoReaction : Type := mkReaction {
  dr_id : string;
  dr_inputs : result (list (string * list DemoCompound));
  dr_outcomes : list (list unit)
}.

Definition role_name (r : Z) : result string :=
  if r =? 1 then Ok "REACTANT"
  else if r =? 3 then Ok "SOLVENT"
  else if r =? 4 then Ok "CATALYST"
  else Raise (Exn ValueError "Enum ReactionRoleType has no name defined for that value").

Definition ligand_rxn : DemoReaction :=
  mkReaction "ord-1"
             (Ok [("Pd_ligand_1", [mkCompound ["XPhos"; ""; "CC(C)c1"] 4;
                                   mkCompound [""; ""] 1]);
                  (" Water ", [mkCompound ["O"] 3]);
                  ("amine_in_solvent", [mkCompound ["NCC"] 9])])
             [[tt]].

Definition broken_rxn : DemoReaction :=
  mkReaction "ord-2" (Raise (Exn LibraryError "inputs unavailable")) [].

Definition parse (s : string) : result DemoReaction :=
  if String.eqb s "bGlnYW5k" then Ok ligand_rxn
  else if String.eqb s "YnJva2Vu" then Ok broken_rxn
  else Raise (Exn LibraryError "Error parsing message").

#[export] Instance schema : OrdSchema := {|
  Reaction := DemoReaction;
  Outcome := list unit;
  Product := unit;
  ReactionInput := list DemoCompound;
  Compound := DemoCompound;
  Identifier := string;
  importable := true;
  parse_b64 := parse;
  reaction_id_value := fun r => Ok (dr_id r);
  outcomes := fun r => Ok (dr_outcomes r);
  reaction_product := fun o => Ok o;
  inputs_items := dr_inputs;
  components := fun i => Ok i;
  identifiers := fun c => Ok (dc_identifiers c);
  value := fun i => Ok i;
  reaction_role := fun c => Ok (dc_role c);
  ReactionRole_Name := role_name
|}.

Definition msg (r : Response) : string :=
  (str_int (status_code r) ++ " Error")%string.

Definition w0 : World := mkWorld 0 [].

Definition respond (status : Z) (body : string) (j : result pyval)
  : positive * get_outcome :=
  (25%positive, Responded (mkResponse status body j)).

Definition no_json : result pyval :=
  Raise (Exn JSONDecodeError "Expecting value: line 1 column 1 (char 0)").

Definition two_datasets : pyval :=
  PList [PDict [("dataset_id", PStr "ds-a"); ("num_reactions", PInt 7)];
         PDict [("dataset_id", PStr "ds-b"); ("num_reactions", PInt 3)]].

Definition url_is (r : Request) (suffix : string) : bool :=
  String.eqb (req_url r) (API_BASE ++ suffix)%string.

(** A service whose query endpoint is down: every [submit_query] is
    answered 500, after the retries of the transport. *)
Definition service_down (log : list Request) : positive * get_outcome :=
  match log with
  | r :: _ =>
      if url_is r "/datasets" then respond 200 "[...]" (Ok two_datasets)
      else respond 500 "Internal Server Error" no_json
  | [] => respond 404 "" no_json
  end.

(** A healthy service: the first dataset has two envelopes and one
    without payload, the second has an envelope that does not parse. *)
Definition service_ok (log : list Request) : positive * get_outcome :=
  match log with
  | r :: _ =>
      if url_is r "/datasets" then respond 200 "[...]" (Ok two_datasets)
      else if url_is r "/submit_query" then
        match assoc_get (req_params r) "dataset_id" with
        | Some (PStr "ds-a") => respond 200 (String PyStr.quote "task-a") (Ok (PStr "task-a"))
        | _ => respond 200 " task-b " no_json
        end
      else
        match assoc_get (req_params r) "task_id" with
        | Some (PStr "task-a") =>
            respond 200 "[...]"
                    (Ok (PList [PDict [("proto", PStr "bGlnYW5k")];
                                PDict [("other", PInt 1)];
                                PDict [("proto", PStr "YnJva2Vu")]]))
        | _ =>
            respond 200 "[...]"
                    (Ok (PList [PDict [("proto", PStr "bGlnYW5k")];
                                PDict [("proto", PStr "AAAA")];
                                PDict [("proto", PStr "bGlnYW5k")]]))
        end
  | [] => respond 404 "" no_json
  end.

(** A service that answers the first poll 304 and every later one 200
    with an empty array. *)
Definition service_304 (log : list Request) : positive * get_outcome :=
  match log with
  | [_] => respond 304 "" no_json
  | _ => respond 200 "[]" (Ok (PList []))
  end.

(** A service that answers the first two polls 202 and the third 200 with
    an empty array. *)
Definition service_202 (log : list Request) : positive * get_outcome :=
  match log with
  | [_] | [_; _] => respond 202 "" no_json
  | _ => respond 200 "[]" (Ok (PList []))
  end.

Definition ds_a : pyval :=
  PDict [("dataset_id", PStr "ds-a"); ("num_reactions", PInt 7)].

Definition ds_b : pyval :=
  PDict [("dataset_id", PStr "ds-b"); ("num_reactions", PInt 3)].

Definition empty_roles : list (string * list pyval) :=
  map (fun k => (k, [])) CORE_CATEGORIES.

Definition xphos : DemoCompound := mkCompound ["XPhos"] 4.

Definition blank : DemoCompound := mkCompound [""; ""] 1.

Definition ligand_record : pyval :=
  Eval vm_compute in
    match extract_reaction_data CORE_CATEGORIES ligand_rxn (PStr "ds-a") with
    | Ok r => r
    | _ => PNone
    end.

(** The run over both datasets with the query endpoint down. *)
Definition down_world : World :=
  Eval vm_compute in
    fst (datasets_loop service_down msg CORE_CATEGORIES (Some 1) 5
                       [ds_a; ds_b] [] 0 w0).

Definition down_out : list pyval :=
  [error_record (PStr "ds-a") (Exn HTTPError "500 Error");
   error_record (PStr "ds-b") (Exn HTTPError "500 Error")].

(** The run over both datasets with the healthy service. *)
Definition ok_world : World :=
  Eval vm_compute in
    fst (datasets_loop service_ok msg CORE_CATEGORIES (Some 1) 5
                       [ds_a; ds_b] [] 0 w0).

Definition ok_out : list pyval :=
  Eval vm_compute in
    match snd (datasets_loop service_ok msg CORE_CATEGORIES (Some 1) 5
                             [ds_a; ds_b] [] 0 w0) with
    | Ok (out, _) => out
    | _ => []
    end.



Definition scrape_world : World :=
  Eval vm_compute in
    fst (scrape_ord_advanced service_ok msg CORE_CATEGORIES (Some 2) 0
                             (Some ["ds-b"]) w0).

Definition scrape_out : list pyval :=
  Eval vm_compute in
    match snd (scrape_ord_advanced service_ok msg CORE_CATEGORIES (Some 2) 0
                                   (Some ["ds-b"]) w0) with
    | Ok out => out
    | _ => []
    end.

(** The schema where the reaction id of a record cannot be read. *)
Definition schema_noid : OrdSchema := {|
  Reaction := DemoReaction;
  Outcome := list unit;
  Product := unit;
  ReactionInput := list DemoCompound;
  Compound := DemoCompound;
  Identifier := string;
  importable := true;
  parse_b64 := parse;
  reaction_id_value :=
    fun _ => Raise (Exn AttributeError "'str' object has no attribute 'value'");
  outcomes := fun r => Ok (dr_outcomes r);
  reaction_product := fun o => Ok o;
  inputs_items := dr_inputs;
  components := fun i => Ok i;
  identifiers := fun c => Ok (dc_identifiers c);
  value := fun i => Ok i;
  reaction_role := fun c => Ok (dc_role c);
  ReactionRole_Name := role_name
|}.

(** The schema library is not installed. *)
Definition schema_missing : OrdSchema := {|
  Reaction := DemoReaction;
  Outcome := list unit;
  Product := unit;
  ReactionInput := list DemoCompound;
  Compound := DemoCompound;
  Identifier := string;
  importable := false;
  parse_b64 := parse;
  reaction_id_value := fun r => Ok (dr_id r);
  outcomes := fun r => Ok (dr_outcomes r);
  reaction_product := fun o => Ok o;
  inputs_items := dr_inputs;
  components := fun i => Ok i;
  identifiers := fun c => Ok (dc_identifiers c);
  value := fun i => Ok i;
  reaction_role := fun c => Ok (dc_role c);
  ReactionRole_Name := role_name
|}.

(** A service whose result is never ready. *)
Definition service_not_ready (log : list Request) : positive * get_outcome :=
  respond 400 "Task NOT READY yet" no_json.

(** A service that answers the first poll 400 "not ready" and the second
    200 with an empty array. *)
Definition service_400_then_200 (log : list Request) : positive * get_outcome :=
  match log with
  | [_] => respond 400 "Not Ready" no_json
  | _ => respond 200 "[]" (Ok (PList []))
  end.

(** No connection: every GET fails after its retries. *)
Definition offline : exn := Exn RequestException "Max retries exceeded".

Definition service_offline (log : list Request) : positive * get_outcome :=
  (25%positive, Failed offline).

Definition three_ids : DemoCompound := mkCompound ["XPhos"; ""; "CC(C)c1"] 4.

Definition odd_role : DemoCompound := mkCompound ["NCC"] 9.

Definition ligand_items : list (string * list DemoCompound) :=
  match dr_inputs ligand_rxn with
  | Ok items => items
  | _ => []
  end.

Definition ligand_comps : list (string * pyval) :=
  Eval vm_compute in
    match ligand_record with
    | PDict d => match assoc_get d "components" with
                 | Some (PDict comps) => comps
                 | _ => []
                 end
    | _ => []
    end.

Definition with_payload : pyval := PDict [("proto", PStr "bGlnYW5k")].

Definition without_payload : list (string * pyval) := [("other", PInt 1)].

Definition ids_args : Args := mkArgs 0 5 (Some "ds-a, ,ds-b,").

(** U+00A0 and U+3000, as their UTF-8 bytes. *)
Definition nbsp : string :=
  String (ascii_of_N 194) (String (ascii_of_N 160) EmptyString).

Definition wide_blank : string :=
  String (ascii_of_N 227)
         (String (ascii_of_N 128) (String (ascii_of_N 128) EmptyString)).

(** A record whose group names carry white space, capitals and
    underscores, and two of whose groups fall in the same category. *)
Definition padded_items : list (string * list DemoCompound) :=
  [("Pd_ligand_1", [mkCompound ["XPhos"; ""; "CC(C)c1"] 4;
                    mkCompound [""; ""] 1]);
   ((nbsp ++ " Cs_Carbonate" ++ wide_blank)%string,
    [mkCompound ["O=C([O-])[O-]"] 1]);
   ("amine_in_solvent", [mkCompound ["NCC"] 9]);
   ("ligand_2", [mkCompound ["PPh3"] 4])].

Definition padded_rxn : DemoReaction :=
  mkReaction "ord-3" (Ok padded_items) [[tt]].

Definition padded_comps : list (string * pyval) :=
  [("base", PList []);
   ("solvent", PList [comp_data "NCC" "UNKNOWN"]);
   ("amine", PList []);
   ("aryl halide", PList []);
   ("metal", PList []);
   ("ligand", PList [comp_data "XPhos; CC(C)c1" "CATALYST";
                     comp_data "PPh3" "CATALYST"]);
   ("cs carbonate", PList [comp_data "O=C([O-])[O-]" "REACTANT"])].

Definition padded_record : pyval :=
  PDict [("dataset_id", PStr "ds-a");
         ("reaction_id", PStr "ord-3");
         ("components", PDict padded_comps);
         ("success", PBool true)].

(** A dataset-id argument with white space of both kinds around the ids. *)
Definition padded_ids_args : Args :=
  mkArgs 0 5 (Some (" ds-a" ++ nbsp ++ "," ++ wide_blank ++ ",ds-b,")%string).

(** A dataset-id argument of white space only. *)
Definition blank_ids_args : Args := mkArgs 0 5 (Some (nbsp ++ "," ++ wide_blank)%string).

End Demo.

(** ** Observations on records, logs and categories *)

(** [r[k]] for a record of the output list. *)
Definition record_get (r : pyval) (k : string) : option pyval :=
  match r with
  | PDict d => assoc_get d k
  | _ => None
  end.

Definition is_submit (r : Request) : bool :=
  String.eqb (req_url r) (API_BASE ++ "/submit_query")%string.

Definition param_dataset_id (r : Request) : pyval :=
  match assoc_get (req_params r) "dataset_id" with
  | Some v => v
  | None => PNone
  end.

(** The dataset ids the service was asked to query, in the order asked:
    one [submit_query] request opens the processing of one dataset. *)
Definition submitted (w : World) : list pyval :=
  rev (map param_dataset_id (filter is_submit (sent w))).

(** [ds.get("dataset_id")] where it does not raise. *)
Definition dataset_id_of (ds : pyval) : pyval :=
  match py_get ds "dataset_id" PNone with
  | Ok v => v
  | _ => PNone
  end.

(** A record without a reaction id: the shape of a dataset-level error. *)
Definition lacks_reaction_id (r : pyval) : bool :=
  match record_get r "reaction_id" with
  | None => true
  | Some _ => false
  end.

Definition dataset_errors (out : list pyval) : nat :=
  List.length (filter lacks_reaction_id out).

(** The spec's classification rule: [cat] is the first name of [order] that
    occurs in [normalized_key], or [normalized_key] itself when none does. *)
Inductive category_of (order : list string) (normalized_key : string)
  : string -> Prop :=
| cat_core pre k post :
    order = pre ++ k :: post ->
    Forall (fun k' => PyStr.contains k' normalized_key = false) pre ->
    PyStr.contains k normalized_key = true ->
    category_of order normalized_key k
| cat_dynamic :
    Forall (fun k' => PyStr.contains k' normalized_key = false) order ->
    category_of order normalized_key normalized_key.

(** The request a poll of [task_id] sends. *)
Definition poll_request (task_id : string) : Request :=
  mkRequest (API_BASE ++ "/fetch_query_result")%string
            [("task_id", PStr task_id)] 30.

(** Time spent in [n] unsuccessful polls: each GET and the pause after it. *)
Definition polling_time (durations : list positive) : Z :=
  fold_right (fun d acc => Z.pos d + 2000 + acc) 0 durations.


(** *** Shapes, categories and invariants of the extractor *)

Definition success_record (dataset_id : pyval) (rid : string) (rs : list (string * list pyval))
           (b : bool) : pyval :=
  PDict [("dataset_id", dataset_id);
         ("reaction_id", PStr rid);
         ("components", components_value rs);
         ("success", PBool b)].

Definition failure_record (dataset_id : pyval) (rid : string) (e : exn) : pyval :=
  PDict [("dataset_id", dataset_id);
         ("reaction_id", PStr rid);
         ("error", PStr (exn_str e))].

Definition matches (normalized_key core_key : string) : bool :=
  PyStr.contains core_key normalized_key.

(** The key [file_component] files under. *)
Definition filed_under (core_order : list string) (normalized_key : string)
  : string :=
  match find (matches normalized_key) core_order with
  | Some k => k
  | None => normalized_key
  end.

(** The entry the extractor makes of a component: none when the component
    has no identifier text. *)
Definition component_entries {schema : OrdSchema} (component : Compound)
  : list pyval :=
  match extract_identifiers component with
  | Ok text_id =>
      if PyStr.nonempty text_id then
        match role_name_of component with
        | Ok role_name => [comp_data text_id role_name]
        | _ => []
        end
      else []
  | _ => []
  end.

(** The entries of the components of one input group, in their order. *)
Definition group_entries {schema : OrdSchema} (g : string * ReactionInput)
  : list pyval :=
  match components (snd g) with
  | Ok cs => flat_map component_entries cs
  | _ => []
  end.

(** The entries the spec's rule puts in category [k]: those of the groups
    whose normalized name is filed under [k], in the order of the groups. *)
Definition category_entries (core_order : list string) {schema : OrdSchema}
           {unicode : PyStr.Unicode} (items : list (string * ReactionInput))
           (k : string) : list pyval :=
  flat_map (fun g => if String.eqb (filed_under core_order (normalize_key (fst g))) k
                     then group_entries g
                     else [])
           items.

(** What the components mapping holds at [k] by that rule: the entries of
    the category; a core category is there without entries, another name is
    a key only once it has an entry. *)
Definition category_binding (core_order : list string) {schema : OrdSchema}
           {unicode : PyStr.Unicode} (items : list (string * ReactionInput))
           (k : string) : option pyval :=
  match category_entries core_order items k with
  | [] => if existsb (String.eqb k) CORE_CATEGORIES then Some (PList []) else None
  | l => Some (PList l)
  end.

(** A category after the entries [l] were appended to it one by one. *)
Definition extend (o : option (list pyval)) (l : list pyval)
  : option (list pyval) :=
  match o, l with
  | Some l0, _ => Some (l0 ++ l)
  | None, [] => None
  | None, _ => Some l
  end.

(** A string of white-space characters only. *)
Definition white (s : string) : Prop :=
  exists ps, Forall (fun p => In p PyStr.whitespace) ps /\
             list_ascii_of_string s = List.concat ps.

(** The string begins, or ends, with a white-space character. *)
Definition starts_white (s : string) : bool :=
  existsb (fun p => PyStr.starts_with p (list_ascii_of_string s))
          PyStr.whitespace.

Definition ends_white (s : string) : bool :=
  existsb (fun p => PyStr.starts_with (rev p) (rev (list_ascii_of_string s)))
          PyStr.whitespace.

Definition keys_present (keys : list string)
           (rs : list (string * list pyval)) : Prop :=
  forall k, In k keys -> assoc_get rs k <> None.

Definition append_entry (cd : pyval) (l : list pyval) : list pyval := l ++ [cd].

(** An entry of a category: a value/role pair with a non-empty value. *)
Definition entry (v : pyval) : Prop :=
  exists text_id role_name,
    v = comp_data text_id role_name /\ text_id <> EmptyString.

Definition entries_ok (rs : list (string * list pyval)) : Prop :=
  forall k l, assoc_get rs k = Some l -> Forall entry l.

(** The invariant of the two nested loops. *)
Definition roles_inv (core_order : list string)
           (rs : list (string * list pyval)) : Prop :=
  keys_present core_order rs /\ entries_ok rs.

(** *** The poller *)

(** The world after a poll that took [d]. *)
Definition after_get (w : World) (task_id : string) (d : positive) : World :=
  mkWorld (clock w + Z.pos d) (poll_request task_id :: sent w).

(** What [json.JSONDecodeError] handling makes of [resp.json()]. *)
Definition ready_result (resp : Response) : result pyval :=
  match json resp with
  | Raise (Exn JSONDecodeError _) => Ok (PList [])
  | r => r
  end.

(** *** The output list *)

(** A record [extract_reaction_data] returned for this dataset. *)
Definition extractor_record (core_order : list string) {schema : OrdSchema}
           {unicode : PyStr.Unicode} (dataset_id r : pyval) : Prop :=
  exists rxn, extract_reaction_data core_order rxn dataset_id = Ok r.

(** A record the orchestrator appends while it processes this dataset. *)
Definition output_record (core_order : list string) {schema : OrdSchema}
           {unicode : PyStr.Unicode} (dataset_id r : pyval) : Prop :=
  extractor_record core_order dataset_id r \/ exists e, r = error_record dataset_id e.

(** *** Sentences of the spec read literally *)

(** The sentence of the spec on other statuses, read literally: whatever
    status is not 200, not 202 and not 400 with a "not ready" body ends the
    polling at once with an exception. *)
Definition fails_on_every_other_status
           (service : list Request -> positive * get_outcome)
           (http_error_msg : Response -> string)
           (unicode : PyStr.Unicode) : Prop :=
  forall task_id w d resp,
    service (poll_request task_id :: sent w) = (d, Responded resp) ->
    status_code resp <> 200 ->
    status_code resp <> 202 ->
    ~ (status_code resp = 400 /\
       PyStr.contains "not ready" (PyStr.lower (text resp)) = true) ->
    exists e,
      fetch_query_result service http_error_msg task_id w
      = (after_get w task_id d, Raise e).

(** The sentence of the spec on the dataset limit, read literally: with a
    positive [max_datasets], no more than [max_datasets] datasets are taken
    up. *)
Definition attempts_within_max_datasets
           (service : list Request -> positive * get_outcome)
           (http_error_msg : Response -> string)
           (core_order : list string) (schema : OrdSchema)
           (unicode : PyStr.Unicode) : Prop :=
  forall m per_dataset_limit dss w,
    0 < m ->
    Z.of_nat (List.length
                (submitted
                   (fst (datasets_loop service http_error_msg core_order
                                       (Some m) per_dataset_limit dss [] 0 w))))
    <= Z.of_nat (List.length (submitted w)) + m.

(** The invariant of the spec on output records, read literally: every
    record of the output list has a dataset id and a reaction id. *)
Definition every_record_has_both_ids
           (service : list Request -> positive * get_outcome)
           (http_error_msg : Response -> string)
           (core_order : list string) (schema : OrdSchema)
           (unicode : PyStr.Unicode) : Prop :=
  forall max_datasets per_dataset_limit dss w w' out c',
    datasets_loop service http_error_msg core_order
                  max_datasets per_dataset_limit dss [] 0 w
    = (w', Ok (out, c')) ->
    Forall (fun r => record_get r "dataset_id" <> None /\
                     record_get r "reaction_id" <> None) out.

(** *** Further observations *)

(** The first and the last character of a string, if any, satisfy [p]. *)
Definition head_is (p : ascii -> bool) (s : string) : bool :=
  match s with
  | EmptyString => false
  | String c _ => p c
  end.

Fixpoint last_is (p : ascii -> bool) (s : string) : bool :=
  match s with
  | EmptyString => false
  | String c EmptyString => p c
  | String _ r => last_is p r
  end.

Definition is_upper (c : ascii) : bool :=
  let n := N_of_ascii c in ((65 <=? n) && (n <=? 90))%N.

Fixpoint string_forall (p : ascii -> bool) (s : string) : bool :=
  match s with
  | EmptyString => true
  | String c r => p c && string_forall p r
  end.

(** The number of entries over all categories. *)
Definition entries_total (rs : list (string * list pyval)) : nat :=
  list_sum (map (fun kv => List.length (snd kv)) rs).

(** The same count read off the components mapping of a record. *)
Definition components_total (comps : list (string * pyval)) : nat :=
  list_sum (map (fun kv => match snd kv with
                           | PList l => List.length l
                           | _ => 0%nat
                           end) comps).

(** The component has identifier text: it is one the extractor keeps. *)
Definition kept {schema : OrdSchema} (c : Compound) : bool :=
  match extract_identifiers c with
  | Ok text_id => PyStr.nonempty text_id
  | _ => false
  end.

Definition kept_in_group {schema : OrdSchema} (g : string * ReactionInput) : nat :=
  match components (snd g) with
  | Ok cs => List.length (filter kept cs)
  | _ => 0%nat
  end.

Definition is_dict (v : pyval) : bool :=
  match v with
  | PDict _ => true
  | _ => false
  end.

(** The values of a list of optional values, in order. *)
Fixpoint somes (A : Type) (l : list (option A)) : list A :=
  match l with
  | [] => []
  | Some a :: r => a :: somes r
  | None :: r => somes r
  end.

(** The answer tells the poller to try again later. *)
Definition pending {unicode : PyStr.Unicode} (resp : Response) : bool :=
  (status_code resp =? 202)
  || ((status_code resp =? 400)
      && PyStr.contains "not ready" (PyStr.lower (text resp))).

(** The request [submit_query] sends. *)
Definition submit_request (dataset_id limit : pyval) : Request :=
  mkRequest (API_BASE ++ "/submit_query")%string
            [("dataset_id", dataset_id); ("limit", limit)] 30.

(** The request that lists the datasets. *)
Definition datasets_request : Request :=
  mkRequest (API_BASE ++ "/datasets")%string [] 30.

(** The keys of the categories: the core names in their order, then names
    from [names], none twice. *)
Definition keys_shape (core_order names : list string)
           (rs : list (string * list pyval)) : Prop :=
  NoDup (map fst rs) /\
  exists dyn, map fst rs = core_order ++ dyn /\ Forall (fun k => In k names) dyn.

(** [r["dataset_id"]] of an output record. *)
Definition record_dataset_id (r : pyval) : pyval :=
  match record_get r "dataset_id" with
  | Some v => v
  | None => PNone
  end.

(** The dataset ids of the records of a run in which the datasets [dss]
    appended [counts] records each, one dataset after the other. *)
Definition grouped_ids (dss : list pyval) (counts : list nat) : list pyval :=
  List.concat (map (fun p => repeat (dataset_id_of (fst p)) (snd p))
              (combine dss counts)).

(** ** Association lists *)

Section AssocFacts.
Variable V : Type.
Implicit Types (d : list (string * V)) (k : string) (f : V -> V).

Lemma assoc_update_present d k f v0 :
  assoc_get d k <> None ->
  assoc_update d k f = Some (assoc_setdefault_update d k v0 f).
Proof.
  induction d as [|[k' v'] d IH]; simpl; [congruence|].
  destruct (String.eqb k' k); intros H.
  - reflexivity.
  - now rewrite (IH H).
Qed.

Lemma assoc_update_absent d k f :
  assoc_get d k = None -> assoc_update d k f = None.
Proof.
  induction d as [|[k' v'] d IH]; simpl; [reflexivity|].
  destruct (String.eqb k' k); [discriminate|].
  intros H. now rewrite (IH H).
Qed.

Lemma assoc_setdefault_update_same d k v0 f :
  assoc_get (assoc_setdefault_update d k v0 f) k =
  Some (f (match assoc_get d k with Some v => v | None => v0 end)).
Proof.
  induction d as [|[k' v'] d IH]; simpl.
  - now rewrite String.eqb_refl.
  - destruct (String.eqb k' k) eqn:E; simpl; rewrite E; [reflexivity|exact IH].
Qed.

Lemma assoc_setdefault_update_other d k k' v0 f :
  k' <> k ->
  assoc_get (assoc_setdefault_update d k v0 f) k' = assoc_get d k'.
Proof.
  intros Hne. induction d as [|[k1 v1] d IH]; simpl.
  - destruct (String.eqb k k') eqn:E; [|reflexivity].
    apply String.eqb_eq in E. congruence.
  - destruct (String.eqb k1 k) eqn:E; simpl.
    + destruct (String.eqb k1 k') eqn:E'; [|reflexivity].
      apply String.eqb_eq in E, E'. congruence.
    + destruct (String.eqb k1 k'); [reflexivity|exact IH].
Qed.

Lemma assoc_get_init (keys : list string) (v : V) k :
  In k keys -> assoc_get (map (fun x => (x, v)) keys) k = Some v.
Proof.
  induction keys as [|x keys IH]; simpl; [tauto|].
  intros [->|H].
  - now rewrite String.eqb_refl.
  - destruct (String.eqb x k); [reflexivity|auto].
Qed.

Lemma assoc_get_init_absent (keys : list string) (v : V) k :
  ~ In k keys -> assoc_get (map (fun x => (x, v)) keys) k = None.
Proof.
  induction keys as [|x keys IH]; simpl; [reflexivity|].
  intros H. destruct (String.eqb x k) eqn:E.
  - apply String.eqb_eq in E. tauto.
  - apply IH. tauto.
Qed.

Lemma assoc_get_init_inv (keys : list string) (v v' : V) k :
  assoc_get (map (fun x => (x, v)) keys) k = Some v' -> v' = v.
Proof.
  induction keys as [|x keys IH]; simpl; [discriminate|].
  destruct (String.eqb x k); [congruence|exact IH].
Qed.

Lemma assoc_get_map (W : Type) (g : V -> W) d k :
  assoc_get (map (fun kv => (fst kv, g (snd kv))) d) k =
  option_map g (assoc_get d k).
Proof.
  induction d as [|[k' v'] d IH]; simpl; [reflexivity|].
  destruct (String.eqb k' k); [reflexivity|exact IH].
Qed.
End AssocFacts.

(** ** White space at the ends of a string *)

Section StripFacts.
Variable table : list (list ascii).
Hypothesis table_nonempty : Forall (fun p => p <> []) table.

Lemma starts_with_skipn p : forall s,
  PyStr.starts_with p s = true -> s = p ++ skipn (List.length p) s.
Proof.
  induction p as [|a p IH]; intros s H; [reflexivity|].
  destruct s as [|b s]; [discriminate|]. simpl in H.
  apply andb_true_iff in H. destruct H as [E H].
  apply Ascii.eqb_eq in E. subst b. simpl. f_equal. now apply IH.
Qed.

Lemma starts_with_app p : forall s t,
  PyStr.starts_with p s = true -> PyStr.starts_with p (s ++ t) = true.
Proof.
  induction p as [|a p IH]; intros s t H; [reflexivity|].
  destruct s as [|b s]; [discriminate|]. simpl in *.
  apply andb_true_iff in H. destruct H as [E H].
  rewrite E. simpl. now apply IH.
Qed.

Lemma leading_nil : PyStr.leading table [] = None.
Proof.
  unfold PyStr.leading.
  destruct (find (fun p => PyStr.starts_with p []) table) as [p|] eqn:F;
    [|reflexivity].
  apply find_some in F. destruct F as [Hin Hs].
  pose proof (proj1 (Forall_forall _ _) table_nonempty p Hin) as Hne.
  destruct p; [congruence|discriminate].
Qed.

Lemma leading_some s p :
  PyStr.leading table s = Some p ->
  In p table /\ p <> [] /\ s = p ++ skipn (List.length p) s.
Proof.
  unfold PyStr.leading. intros H. apply find_some in H. destruct H as [Hin Hs].
  split; [assumption|]. split.
  - exact (proj1 (Forall_forall _ _) table_nonempty p Hin).
  - now apply starts_with_skipn.
Qed.

Lemma lstrip_loop_spec fuel : forall s,
  (List.length s <= fuel)%nat ->
  exists ps,
    Forall (fun p => In p table) ps /\
    s = List.concat ps ++ PyStr.lstrip_loop table fuel s /\
    PyStr.leading table (PyStr.lstrip_loop table fuel s) = None.
Proof.
  induction fuel as [|fuel IH]; intros s Hlen.
  - destruct s; [|simpl in Hlen; lia].
    exists []. simpl. split; [constructor|]. split; [reflexivity|apply leading_nil].
  - simpl. destruct (PyStr.leading table s) as [p|] eqn:L.
    + destruct (leading_some _ L) as (Hin & Hne & Hs).
      assert (Hlen' : (List.length (skipn (List.length p) s) <= fuel)%nat).
      { pose proof (f_equal (@List.length _) Hs) as Hl.
        rewrite length_app in Hl.
        destruct p; [congruence|]. cbn [List.length] in Hl |- *. lia. }
      destruct (IH _ Hlen') as (ps & Hps & Hcat & Hlead).
      exists (p :: ps). split; [constructor; assumption|].
      split; [|assumption].
      simpl. rewrite <- app_assoc, <- Hcat. exact Hs.
    + exists []. simpl. split; [constructor|]. split; [reflexivity|assumption].
Qed.

Lemma lstrip_bytes_spec s :
  exists ps,
    Forall (fun p => In p table) ps /\
    s = List.concat ps ++ PyStr.lstrip_bytes table s /\
    PyStr.leading table (PyStr.lstrip_bytes table s) = None.
Proof. apply lstrip_loop_spec. apply le_n. Qed.

End StripFacts.

Lemma whitespace_nonempty : Forall (fun p => p <> []) PyStr.whitespace.
Proof.
  apply Forall_forall. intros p Hin Hp. subst p.
  vm_compute in Hin. intuition discriminate.
Qed.

Lemma rev_table_nonempty (table : list (list ascii)) :
  Forall (fun p => p <> []) table ->
  Forall (fun p => p <> []) (map (@rev ascii) table).
Proof.
  intros H. apply Forall_map. eapply Forall_impl; [|exact H].
  intros p Hp E. apply Hp. apply (f_equal (@rev _)) in E.
  now rewrite rev_involutive in E.
Qed.

Lemma rev_concat_table (table : list (list ascii)) ps :
  Forall (fun p => In p (map (@rev ascii) table)) ps ->
  exists qs, Forall (fun p => In p table) qs /\
             rev (List.concat ps) = List.concat qs.
Proof.
  induction 1 as [|p ps Hp _ (qs & Hqs & E)].
  - exists []. split; [constructor|reflexivity].
  - apply in_map_iff in Hp. destruct Hp as (q & <- & Hq).
    exists (qs ++ [q]). split.
    + apply Forall_app. split; [assumption|]. now constructor.
    + simpl. rewrite rev_app_distr, rev_involutive, E, concat_app. simpl.
      now rewrite app_nil_r.
Qed.

Lemma string_of_list_ascii_app l1 l2 :
  string_of_list_ascii (l1 ++ l2)
  = (string_of_list_ascii l1 ++ string_of_list_ascii l2)%string.
Proof. induction l1 as [|a l1 IH]; simpl; [reflexivity|]. now rewrite IH. Qed.

Lemma find_none_existsb (A : Type) (f : A -> bool) l :
  find f l = None -> existsb f l = false.
Proof.
  induction l as [|x l IH]; simpl; [reflexivity|].
  destruct (f x); [discriminate|exact IH].
Qed.

Lemma existsb_false_weaken (A : Type) (f g : A -> bool) l :
  (forall x, g x = true -> f x = true) ->
  existsb f l = false -> existsb g l = false.
Proof.
  intros Hfg. induction l as [|x l IH]; simpl; [reflexivity|].
  intros H. apply orb_false_iff in H. destruct H as [Hx Hl].
  rewrite (IH Hl), orb_false_r.
  destruct (g x) eqn:G; [|reflexivity]. apply Hfg in G. congruence.
Qed.

Lemma existsb_mapped (A B : Type) (f : B -> bool) (g : A -> B) l :
  existsb f (map g l) = existsb (fun x => f (g x)) l.
Proof. induction l as [|x l IH]; simpl; [reflexivity|]. now rewrite IH. Qed.

(** [strip] takes white space off both ends, all of it, and nothing else. *)
Lemma strip_spec s :
  exists pre post,
    s = (pre ++ PyStr.strip s ++ post)%string /\
    white pre /\ white post /\
    starts_white (PyStr.strip s) = false /\
    ends_white (PyStr.strip s) = false.
Proof.
  unfold PyStr.strip, PyStr.rstrip_bytes.
  destruct (lstrip_bytes_spec whitespace_nonempty (list_ascii_of_string s))
    as (ps1 & Hps1 & Hs & Hlead).
  set (r1 := PyStr.lstrip_bytes PyStr.whitespace (list_ascii_of_string s)) in *.
  destruct (lstrip_bytes_spec (rev_table_nonempty whitespace_nonempty) (rev r1))
    as (ps2 & Hps2 & Hr & Htrail).
  set (r2 := PyStr.lstrip_bytes (map (@rev ascii) PyStr.whitespace) (rev r1)) in *.
  destruct (rev_concat_table _ Hps2) as (qs & Hqs & Hq).
  assert (Hr1 : r1 = rev r2 ++ List.concat qs).
  { rewrite <- Hq, <- rev_app_distr, <- Hr. now rewrite rev_involutive. }
  exists (string_of_list_ascii (List.concat ps1)),
         (string_of_list_ascii (List.concat qs)).
  split; [|split; [|split; [|split]]].
  - rewrite <- !string_of_list_ascii_app, <- Hr1, <- Hs.
    now rewrite string_of_list_ascii_of_string.
  - exists ps1. split; [assumption|apply list_ascii_of_string_of_list_ascii].
  - exists qs. split; [assumption|apply list_ascii_of_string_of_list_ascii].
  - unfold starts_white. rewrite list_ascii_of_string_of_list_ascii.
    apply find_none_existsb in Hlead. revert Hlead.
    apply existsb_false_weaken. intros p Hp. rewrite Hr1.
    now apply starts_with_app.
  - unfold ends_white. rewrite list_ascii_of_string_of_list_ascii.
    rewrite rev_involutive.
    apply find_none_existsb in Htrail. unfold PyStr.leading in *.
    rewrite existsb_mapped in Htrail. exact Htrail.
Qed.

Lemma is_ascii_app s t :
  PyStr.is_ascii (s ++ t) = PyStr.is_ascii s && PyStr.is_ascii t.
Proof.
  induction s as [|c s IH]; simpl; [reflexivity|].
  now rewrite IH, andb_assoc.
Qed.

Lemma strip_ascii s : PyStr.is_ascii s = true -> PyStr.is_ascii (PyStr.strip s) = true.
Proof.
  destruct (strip_spec s) as (pre & post & E & _). intros H.
  rewrite E, !is_ascii_app in H.
  apply andb_true_iff in H. destruct H as [_ H].
  apply andb_true_iff in H. tauto.
Qed.

(** ** The extractor *)

(** Case analysis on the next computation a [bind] or [try_except] runs. *)
Ltac step_result :=
  match goal with
  | H : context [bind ?m _] |- _ =>
      let E := fresh "E" in destruct m eqn:E; simpl in H
  | H : context [try_except ?m _] |- _ =>
      let E := fresh "E" in destruct m eqn:E; simpl in H
  end.

Ltac inv H := inversion H; subst; clear H.

Section ExtractorFacts.
Variable core_order : list string.
Context {schema : OrdSchema}.
Context {unicode : PyStr.Unicode}.

Hypothesis core_order_perm : Permutation CORE_CATEGORIES core_order.

Local Abbreviation init := (initial_roles core_order).

(** The two shapes [extract_reaction_data] returns, and where their parts
    come from. *)
Lemma extract_reaction_data_shape rxn dataset_id r :
  extract_reaction_data core_order rxn dataset_id = Ok r ->
  (exists b items rs rid,
      outcome_flag rxn = Ok b /\
      inputs_items rxn = Ok items /\
      inputs_loop core_order items init = Ok rs /\
      reaction_id_value rxn = Ok rid /\
      r = success_record dataset_id rid rs b)
  \/ (exists e rid,
         reaction_id_value rxn = Ok rid /\
         r = failure_record dataset_id rid e).
Proof.
  unfold extract_reaction_data. intros H.
  destruct (outcome_flag rxn) as [b| |] eqn:E1; simpl in H;
    [|right; step_result; [inv H; do 2 eexists; split; reflexivity|discriminate|discriminate]|discriminate].
  destruct (inputs_items rxn) as [items| |] eqn:E2; simpl in H;
    [|right; step_result; [inv H; do 2 eexists; split; reflexivity|discriminate|discriminate]|discriminate].
  destruct (inputs_loop core_order items init) as [rs| |] eqn:E3; simpl in H;
    [|right; step_result; [inv H; do 2 eexists; split; reflexivity|discriminate|discriminate]|discriminate].
  destruct (reaction_id_value rxn) as [rid| |] eqn:E4; simpl in H;
    [|discriminate|discriminate].
  inv H. left. exists b, items, rs, rid. repeat split; try assumption; reflexivity.
Qed.


(** *** Classification *)

Lemma core_loop_find keys normalized_key cd rs :
  keys_present keys rs ->
  core_loop keys normalized_key cd rs =
  match find (matches normalized_key) keys with
  | Some k => Ok (true, assoc_setdefault_update rs k [] (append_entry cd))
  | None => Ok (false, rs)
  end.
Proof.
  induction keys as [|k keys IH]; intros Hk; simpl; [reflexivity|].
  unfold matches at 1.
  destruct (PyStr.contains k normalized_key).
  - rewrite (@assoc_update_present _ rs k _ []); [reflexivity|].
    apply Hk. now left.
  - apply IH. intros k' Hin. apply Hk. now right.
Qed.

Lemma file_component_filed normalized_key cd rs :
  keys_present core_order rs ->
  file_component core_order normalized_key cd rs =
  Ok (assoc_setdefault_update rs (filed_under core_order normalized_key) []
                              (append_entry cd)).
Proof.
  intros Hk. unfold file_component, filed_under.
  rewrite (core_loop_find _ _ Hk).
  destruct (find (matches normalized_key) core_order); reflexivity.
Qed.

Lemma find_category (order : list string) normalized_key :
  category_of order normalized_key
              (match find (matches normalized_key) order with
               | Some k => k
               | None => normalized_key
               end).
Proof.
  destruct (find (matches normalized_key) order) as [k|] eqn:F.
  - assert (H : exists pre post,
               order = pre ++ k :: post /\
               Forall (fun k' => PyStr.contains k' normalized_key = false) pre).
    { clear - F. induction order as [|x order IH]; simpl in F; [discriminate|].
      destruct (matches normalized_key x) eqn:M.
      - inv F. exists [], order. split; [reflexivity|constructor].
      - destruct (IH F) as (pre & post & -> & Hpre).
        exists (x :: pre), post. split; [reflexivity|].
        constructor; assumption. }
    destruct H as (pre & post & Ho & Hpre).
    apply find_some in F. destruct F as [_ M].
    eapply cat_core; eauto.
  - apply cat_dynamic. apply Forall_forall. intros x Hx.
    exact (find_none _ _ F x Hx).
Qed.

Lemma filed_under_category normalized_key :
  category_of core_order normalized_key (filed_under core_order normalized_key).
Proof. apply find_category. Qed.

Lemma keys_present_perm rs :
  keys_present CORE_CATEGORIES rs <-> keys_present core_order rs.
Proof.
  unfold keys_present. split; intros H k Hin; apply H.
  - eapply Permutation_in; [apply Permutation_sym|]; eassumption.
  - eapply Permutation_in; eassumption.
Qed.

Lemma nonempty_false s : PyStr.nonempty s = false <-> s = EmptyString.
Proof. destruct s; simpl; split; congruence. Qed.

(** What one component does to the categories. *)
Lemma component_step_cases normalized_key component rs rs' :
  keys_present core_order rs ->
  component_step core_order normalized_key component rs = Ok rs' ->
  (extract_identifiers component = Ok EmptyString /\ rs' = rs)
  \/ (exists text_id role_name,
         extract_identifiers component = Ok text_id /\
         text_id <> EmptyString /\
         role_name_of component = Ok role_name /\
         rs' = assoc_setdefault_update
                 rs (filed_under core_order normalized_key) []
                 (append_entry (comp_data text_id role_name))).
Proof.
  intros Hk H. unfold component_step in H.
  destruct (extract_identifiers component) as [text_id| |] eqn:E1; simpl in H;
    try discriminate.
  destruct (PyStr.nonempty text_id) eqn:N; simpl in H.
  - destruct (role_name_of component) as [role_name| |] eqn:E2; simpl in H;
      try discriminate.
    rewrite (file_component_filed _ _ Hk) in H. inv H.
    right. exists text_id, role_name. repeat split; try reflexivity.
    intros ->. discriminate.
  - inv H. left. apply nonempty_false in N. subst. auto.
Qed.

Lemma keys_present_filed keys rs k cd :
  keys_present keys rs ->
  keys_present keys (assoc_setdefault_update rs k [] (append_entry cd)).
Proof.
  intros H k' Hin. destruct (string_dec k' k) as [->|Hne].
  - rewrite assoc_setdefault_update_same. discriminate.
  - rewrite assoc_setdefault_update_other by assumption. auto.
Qed.

Lemma entries_ok_filed rs k cd :
  entry cd -> entries_ok rs ->
  entries_ok (assoc_setdefault_update rs k [] (append_entry cd)).
Proof.
  intros Hcd H k' l. destruct (string_dec k' k) as [->|Hne].
  - rewrite assoc_setdefault_update_same. intros E. inv E.
    unfold append_entry. apply Forall_app. split; [|repeat constructor; exact Hcd].
    destruct (assoc_get rs k) eqn:G; [eauto|constructor].
  - rewrite assoc_setdefault_update_other by assumption. apply H.
Qed.

Lemma init_inv : roles_inv core_order init.
Proof.
  split.
  - intros k Hin. unfold initial_roles. now rewrite assoc_get_init.
  - intros k l E. unfold initial_roles in E. apply assoc_get_init_inv in E. subst.
    constructor.
Qed.

Lemma component_step_inv normalized_key component rs rs' :
  roles_inv core_order rs ->
  component_step core_order normalized_key component rs = Ok rs' ->
  roles_inv core_order rs'.
Proof.
  intros [Hk He] H.
  destruct (component_step_cases _ _ Hk H)
    as [[_ ->]|(text_id & role_name & _ & Hne & _ & ->)].
  - now split.
  - split; [now apply keys_present_filed|].
    apply entries_ok_filed; [|assumption].
    exists text_id, role_name. auto.
Qed.

Lemma components_loop_inv normalized_key cs : forall rs rs',
  roles_inv core_order rs ->
  components_loop core_order normalized_key cs rs = Ok rs' ->
  roles_inv core_order rs'.
Proof.
  induction cs as [|c cs IH]; simpl; intros rs rs' Hi H.
  - now inv H.
  - step_result; try discriminate.
    eapply IH; [|eassumption]. eapply component_step_inv; eassumption.
Qed.

Lemma inputs_loop_inv items : forall rs rs',
  roles_inv core_order rs ->
  inputs_loop core_order items rs = Ok rs' ->
  roles_inv core_order rs'.
Proof.
  induction items as [|[input_key reaction_input] items IH]; simpl;
    intros rs rs' Hi H.
  - now inv H.
  - step_result; try discriminate. step_result; try discriminate.
    eapply IH; [|eassumption]. eapply components_loop_inv; eassumption.
Qed.


(** *** Identifier text *)

Lemma join_nonempty sep (l : list string) :
  Forall (fun s => PyStr.nonempty s = true) l ->
  PyStr.join sep l = EmptyString -> l = [].
Proof.
  destruct l as [|x r]; [reflexivity|].
  intros Hl. inversion Hl as [|? ? Hx _]; subst.
  destruct x as [|c x]; [discriminate|].
  destruct r; simpl; discriminate.
Qed.

Lemma identifiers_loop_values ids : forall texts out,
  identifiers_loop ids texts = Ok out ->
  exists vals,
    Forall2 (fun i v => value i = Ok v) ids vals /\
    out = texts ++ filter PyStr.nonempty vals.
Proof.
  induction ids as [|i ids IH]; simpl; intros texts out H.
  - inv H. exists []. split; [constructor|]. now rewrite app_nil_r.
  - destruct (value i) as [v| |] eqn:Ev; simpl in H; try discriminate.
    destruct (PyStr.nonempty v) eqn:N;
      destruct (IH _ _ H) as (vals & Hv & ->);
      exists (v :: vals); (split; [constructor; assumption|]);
      simpl; rewrite N; [now rewrite <- app_assoc|reflexivity].
Qed.

Lemma identifiers_loop_all_empty ids : forall texts,
  (forall i, In i ids -> value i = Ok EmptyString) ->
  identifiers_loop ids texts = Ok texts.
Proof.
  induction ids as [|i ids IH]; simpl; intros texts H; [reflexivity|].
  rewrite (H i) by now left. simpl. apply IH. intros j Hj. apply H. now right.
Qed.

Lemma values_all_empty ids vals :
  Forall2 (fun i v => value i = Ok v) ids vals ->
  filter PyStr.nonempty vals = [] ->
  forall i, In i ids -> value i = Ok EmptyString.
Proof.
  induction 1 as [|i v ids vals Hiv Hv IH]; intros F j Hj.
  - destruct Hj.
  - simpl in F. destruct (PyStr.nonempty v) eqn:N; [discriminate|].
    apply nonempty_false in N. subst v.
    destruct Hj as [<-|Hj]; [assumption|]. now apply IH.
Qed.

(** The identifier text is empty exactly when no identifier has a
    non-empty value. *)
Lemma extract_identifiers_empty compound :
  extract_identifiers compound = Ok EmptyString <->
  exists ids, identifiers compound = Ok ids /\
              forall i, In i ids -> value i = Ok EmptyString.
Proof.
  unfold extract_identifiers. split.
  - intros H. destruct (identifiers compound) as [ids| |] eqn:E; simpl in H;
      try discriminate.
    exists ids. split; [reflexivity|].
    destruct (identifiers_loop ids []) as [out| |] eqn:L; simpl in H;
      try discriminate.
    destruct (identifiers_loop_values _ _ L) as (vals & Hv & ->).
    simpl in H. injection H as H1.
    assert (F : filter PyStr.nonempty vals = []).
    { eapply join_nonempty; [|eassumption].
      apply Forall_forall. intros x Hx. apply filter_In in Hx. tauto. }
    eapply values_all_empty; eassumption.
  - intros (ids & -> & H). simpl.
    now rewrite (identifiers_loop_all_empty _ _ H).
Qed.

Lemma outcome_flag_true rxn b :
  outcome_flag rxn = Ok b ->
  (b = true <->
   exists o os p ps,
     outcomes rxn = Ok (o :: os) /\ reaction_product o = Ok (p :: ps)).
Proof.
  unfold outcome_flag. intros H.
  destruct (outcomes rxn) as [os| |] eqn:E; simpl in H; try discriminate.
  destruct os as [|o os].
  - inv H. split; [discriminate|]. intros (o & os & p & ps & Ho & _).
    discriminate.
  - destruct (reaction_product o) as [p| |] eqn:P; simpl in H; try discriminate.
    destruct p as [|p ps]; inv H.
    + split; [discriminate|]. intros (o' & os' & p & ps & Ho & Hp).
      inv Ho. congruence.
    + split; [|reflexivity]. intros _. exists o, os, p, ps. auto.
Qed.

Lemma extract_record_ids rxn dataset_id r :
  extract_reaction_data core_order rxn dataset_id = Ok r ->
  record_get r "dataset_id" = Some dataset_id /\
  exists rid, reaction_id_value rxn = Ok rid /\
              record_get r "reaction_id" = Some (PStr rid).
Proof.
  intros H. apply extract_reaction_data_shape in H.
  destruct H as [(b & items & rs & rid & _ & _ & _ & Hr & ->)
                |(e & rid & Hr & ->)];
    (split; [reflexivity|exists rid; split; [assumption|reflexivity]]).
Qed.

(** *** Claims about the extractor *)

(** C4. The success flag of an extracted record is true exactly when the
    decoded record has a first outcome and that outcome's reaction-product
    collection is not empty; with no outcome the flag is false. *)
Theorem success_flag_first_outcome rxn dataset_id r :
  extract_reaction_data core_order rxn dataset_id = Ok r ->
  record_get r "error" = None ->
  exists b,
    record_get r "success" = Some (PBool b) /\
    (b = true <->
     exists o os p ps,
       outcomes rxn = Ok (o :: os) /\ reaction_product o = Ok (p :: ps)) /\
    (outcomes rxn = Ok [] -> b = false).
Proof.
  intros H Hne. apply extract_reaction_data_shape in H.
  destruct H as [(b & items & rs & rid & Hb & _ & _ & _ & ->)
                |(e & rid & _ & ->)]; [|discriminate].
  exists b. split; [reflexivity|]. split; [now apply outcome_flag_true|].
  intros Ho. apply outcome_flag_true in Hb. destruct b; [|reflexivity].
  destruct (proj1 Hb eq_refl) as (o & os & p & ps & Ho' & _). congruence.
Qed.

(** C8. A record of the non-error shape binds each of the six core
    category names to a list in its components mapping. *)
Theorem components_hold_core_keys rxn dataset_id r :
  extract_reaction_data core_order rxn dataset_id = Ok r ->
  record_get r "error" = None ->
  exists comps,
    record_get r "components" = Some (PDict comps) /\
    forall k, In k CORE_CATEGORIES ->
              exists l, assoc_get comps k = Some (PList l).
Proof.
  intros H Hne. apply extract_reaction_data_shape in H.
  destruct H as [(b & items & rs & rid & _ & _ & Hl & _ & ->)
                |(e & rid & _ & ->)]; [|discriminate].
  eexists. split; [reflexivity|]. intros k Hin.
  destruct (inputs_loop_inv _ init_inv Hl) as [Hk _].
  apply keys_present_perm in Hk. specialize (Hk k Hin).
  rewrite assoc_get_map.
  destruct (assoc_get rs k) as [l|]; [|congruence].
  exists l. reflexivity.
Qed.

(** C7. A component whose identifier text is empty, that is, one with no
    non-empty identifier value, leaves the categories as they are: the
    result is the one obtained without the component, whatever its role,
    and every entry of every category has a non-empty value. *)
Theorem component_without_text_dropped normalized_key component :
  (exists ids, identifiers component = Ok ids /\
               forall i, In i ids -> value i = Ok EmptyString) ->
  extract_identifiers component = Ok EmptyString /\
  (forall rs, component_step core_order normalized_key component rs = Ok rs) /\
  (forall before after rs,
      components_loop core_order normalized_key
                      (before ++ component :: after) rs =
      components_loop core_order normalized_key (before ++ after) rs) /\
  (forall rxn dataset_id r comps k l,
      extract_reaction_data core_order rxn dataset_id = Ok r ->
      record_get r "components" = Some (PDict comps) ->
      assoc_get comps k = Some (PList l) ->
      Forall entry l).
Proof.
  intros Hids. apply extract_identifiers_empty in Hids.
  assert (Hstep : forall rs,
             component_step core_order normalized_key component rs = Ok rs).
  { intros rs. unfold component_step. now rewrite Hids. }
  split; [assumption|]. split; [assumption|]. split.
  - induction before as [|c before IH]; intros after rs; simpl.
    + now rewrite Hstep.
    + destruct (component_step core_order normalized_key c rs); simpl;
        [apply IH|reflexivity|reflexivity].
  - intros rxn dataset_id r comps k l H Hc Hg.
    apply extract_reaction_data_shape in H.
    destruct H as [(b & items & rs & rid & _ & _ & Hl & _ & ->)
                  |(e & rid & _ & ->)]; [|discriminate].
    simpl in Hc. inv Hc. rewrite assoc_get_map in Hg.
    destruct (inputs_loop_inv _ init_inv Hl) as [_ He].
    destruct (assoc_get rs k) as [l'|] eqn:G; simpl in Hg; [|discriminate].
    inv Hg. eapply He; eassumption.
Qed.


Lemma normalize_pd_ligand : normalize_key "Pd_ligand_1" = "pd ligand 1".
Proof.
  unfold normalize_key.
  change (PyStr.strip "Pd_ligand_1") with "Pd_ligand_1".
  now rewrite PyStr.lower_ascii.
Qed.

Lemma pd_ligand_filed_under :
  filed_under core_order (normalize_key "Pd_ligand_1") = "ligand".
Proof.
  rewrite normalize_pd_ligand. unfold filed_under.
  assert (Hall : Forall (fun k => matches "pd ligand 1" k = true -> k = "ligand")
                        core_order).
  { eapply Permutation_Forall; [exact core_order_perm|].
    repeat constructor; vm_compute; congruence. }
  destruct (find (matches "pd ligand 1") core_order) as [k|] eqn:F.
  - apply find_some in F. destruct F as [Hin M].
    rewrite Forall_forall in Hall. now apply Hall.
  - assert (Hin : In "ligand" core_order).
    { eapply Permutation_in; [exact core_order_perm|]. simpl. tauto. }
    pose proof (find_none _ _ F _ Hin) as M. vm_compute in M. discriminate.
Qed.

(** The category rule singles out one category: the one [file_component]
    files under. *)
Lemma find_first (order pre post : list string) normalized_key k :
  order = pre ++ k :: post ->
  Forall (fun k' => PyStr.contains k' normalized_key = false) pre ->
  PyStr.contains k normalized_key = true ->
  find (matches normalized_key) order = Some k.
Proof.
  intros -> Hpre Hk. induction Hpre as [|x pre Hx _ IH]; simpl.
  - unfold matches at 1. now rewrite Hk.
  - unfold matches at 1. now rewrite Hx.
Qed.

Lemma category_of_filed_under (order : list string) normalized_key cat :
  category_of order normalized_key cat <-> cat = filed_under order normalized_key.
Proof.
  split.
  - intros H. unfold filed_under. destruct H as [pre k post Ho Hpre Hk|Hall].
    + now rewrite (@find_first _ _ _ _ _ Ho Hpre Hk).
    + destruct (find (matches normalized_key) order) as [k|] eqn:F;
        [|reflexivity].
      apply find_some in F. destruct F as [Hin M].
      rewrite Forall_forall in Hall. unfold matches in M.
      rewrite (Hall _ Hin) in M. discriminate.
  - intros ->. apply find_category.
Qed.

(** *** The categories as a function of the input groups *)

Lemma extend_nil o : extend o [] = o.
Proof. destruct o; simpl; [now rewrite app_nil_r|reflexivity]. Qed.

Lemma extend_app o l1 l2 : extend (extend o l1) l2 = extend o (l1 ++ l2).
Proof.
  destruct o as [l0|]; simpl; [now rewrite app_assoc|].
  destruct l1; simpl; [reflexivity|]. reflexivity.
Qed.

Lemma component_step_extend normalized_key component rs rs' :
  keys_present core_order rs ->
  component_step core_order normalized_key component rs = Ok rs' ->
  forall k,
    assoc_get rs' k =
    extend (assoc_get rs k)
           (if String.eqb (filed_under core_order normalized_key) k
            then component_entries component else []).
Proof.
  intros Hk H k.
  destruct (component_step_cases _ _ Hk H)
    as [[Ht ->]|(text_id & role_name & Ht & Hne & Hr & ->)];
    unfold component_entries; rewrite Ht.
  - simpl. destruct (String.eqb _ k); now rewrite extend_nil.
  - destruct text_id as [|c text_id]; [congruence|]. simpl. rewrite Hr.
    destruct (String.eqb (filed_under core_order normalized_key) k) eqn:E.
    + apply String.eqb_eq in E. subst k.
      rewrite assoc_setdefault_update_same. unfold append_entry.
      destruct (assoc_get rs (filed_under core_order normalized_key));
        reflexivity.
    + apply String.eqb_neq in E.
      rewrite assoc_setdefault_update_other by congruence.
      now rewrite extend_nil.
Qed.

Lemma components_loop_extend normalized_key cs : forall rs rs',
  roles_inv core_order rs ->
  components_loop core_order normalized_key cs rs = Ok rs' ->
  forall k,
    assoc_get rs' k =
    extend (assoc_get rs k)
           (if String.eqb (filed_under core_order normalized_key) k
            then flat_map component_entries cs else []).
Proof.
  induction cs as [|c cs IH]; simpl; intros rs rs' Hi H k.
  - inv H. destruct (String.eqb _ k); now rewrite extend_nil.
  - step_result; try discriminate.
    rewrite (IH _ _ (component_step_inv _ _ Hi E) H k).
    rewrite (component_step_extend _ _ (proj1 Hi) E k), extend_app.
    destruct (String.eqb _ k); reflexivity.
Qed.

Lemma inputs_loop_extend items : forall rs rs',
  roles_inv core_order rs ->
  inputs_loop core_order items rs = Ok rs' ->
  forall k,
    assoc_get rs' k = extend (assoc_get rs k) (category_entries core_order items k).
Proof.
  induction items as [|[input_key reaction_input] items IH]; simpl;
    intros rs rs' Hi H k.
  - inv H. now rewrite extend_nil.
  - step_result; try discriminate. step_result; try discriminate.
    rewrite (IH _ _ (components_loop_inv _ _ Hi E0) H k).
    rewrite (components_loop_extend _ _ Hi E0 k), extend_app.
    unfold category_entries, group_entries. simpl. rewrite E. reflexivity.
Qed.

Lemma core_member k :
  existsb (String.eqb k) CORE_CATEGORIES = true <-> In k core_order.
Proof.
  rewrite existsb_exists. split.
  - intros (x & Hin & E). apply String.eqb_eq in E. subst x.
    eapply Permutation_in; eassumption.
  - intros Hin. exists k. split; [|apply String.eqb_refl].
    eapply Permutation_in; [apply Permutation_sym|]; eassumption.
Qed.

Lemma init_binding k :
  assoc_get init k
  = if existsb (String.eqb k) CORE_CATEGORIES then Some [] else None.
Proof.
  unfold initial_roles.
  destruct (existsb (String.eqb k) CORE_CATEGORIES) eqn:E.
  - apply assoc_get_init. now apply core_member.
  - apply assoc_get_init_absent. intros Hin. apply core_member in Hin.
    congruence.
Qed.

Lemma components_binding rxn dataset_id r comps items :
  extract_reaction_data core_order rxn dataset_id = Ok r ->
  record_get r "components" = Some (PDict comps) ->
  inputs_items rxn = Ok items ->
  forall k, assoc_get comps k = category_binding core_order items k.
Proof.
  intros H Hc Hi k. apply extract_reaction_data_shape in H.
  destruct H as [(b & items' & rs & rid & _ & Hi' & Hl & _ & ->)
                |(e & rid & _ & ->)]; [|discriminate].
  rewrite Hi in Hi'. inv Hi'. simpl in Hc. inv Hc.
  rewrite assoc_get_map, (inputs_loop_extend _ init_inv Hl k), init_binding.
  unfold category_binding.
  destruct (existsb (String.eqb k) CORE_CATEGORIES);
    destruct (category_entries core_order items' k); reflexivity.
Qed.

Lemma in_category_entries items g k (v : pyval) :
  In g items ->
  filed_under core_order (normalize_key (fst g)) = k ->
  In v (group_entries g) ->
  In v (category_entries core_order items k).
Proof.
  intros Hg Hk Hv. unfold category_entries. apply in_flat_map.
  exists g. split; [assumption|].
  rewrite Hk, String.eqb_refl. assumption.
Qed.

Lemma binding_entries items k (v : pyval) :
  In v (category_entries core_order items k) ->
  exists l, category_binding core_order items k = Some (PList l) /\
            l = category_entries core_order items k.
Proof.
  unfold category_binding. intros Hv.
  destruct (category_entries core_order items k) as [|x l]; [destruct Hv|].
  eexists. split; reflexivity.
Qed.

Lemma normalize_key_trims input_key :
  exists pre core post,
    input_key = (pre ++ core ++ post)%string /\
    white pre /\ white post /\
    starts_white core = false /\ ends_white core = false /\
    normalize_key input_key = PyStr.replace_char "_" " " (PyStr.lower core).
Proof.
  destruct (strip_spec input_key) as (pre & post & E & Hpre & Hpost & Hs & He).
  exists pre, (PyStr.strip input_key), post. repeat split; assumption.
Qed.

(** C5. The components mapping of an extracted record is the one the rule
    of the spec gives for the input groups of the decoded record.  The
    normalized name of a group is its name without the white space at its
    ends, lowercased, with a blank for every underscore.  The category of a
    normalized name is the first core category, in the iteration order of
    the category set, whose name occurs in it, and the normalized name
    itself only when none does; it is the only one.  Each key of the mapping
    holds the entries of the groups of that category and of no other group,
    in the order of the groups and of their components, so every kept
    component is in the list of the category of its own group.  The entries
    of a group named "Pd_ligand_1" are under "ligand", and the mapping has
    no key "pd ligand 1". *)
Theorem extractor_files_by_group_name rxn dataset_id r comps items :
  extract_reaction_data core_order rxn dataset_id = Ok r ->
  record_get r "components" = Some (PDict comps) ->
  inputs_items rxn = Ok items ->
  (forall input_key, exists pre core post,
      input_key = (pre ++ core ++ post)%string /\
      white pre /\ white post /\
      starts_white core = false /\ ends_white core = false /\
      normalize_key input_key = PyStr.replace_char "_" " " (PyStr.lower core)) /\
  (forall normalized_key cat,
      category_of core_order normalized_key cat <->
      cat = filed_under core_order normalized_key) /\
  (forall k, assoc_get comps k = category_binding core_order items k) /\
  (forall g cs component text_id role_name,
      In g items ->
      components (snd g) = Ok cs ->
      In component cs ->
      extract_identifiers component = Ok text_id ->
      text_id <> EmptyString ->
      role_name_of component = Ok role_name ->
      exists cat l,
        category_of core_order (normalize_key (fst g)) cat /\
        assoc_get comps cat = Some (PList l) /\
        In (comp_data text_id role_name) l /\
        l = category_entries core_order items cat) /\
  (forall g,
      In g items -> fst g = "Pd_ligand_1" ->
      normalize_key (fst g) = "pd ligand 1" /\
      category_of core_order (normalize_key (fst g)) "ligand" /\
      exists l, assoc_get comps "ligand" = Some (PList l) /\
                incl (group_entries g) l) /\
  assoc_get comps "pd ligand 1" = None.
Proof.
  intros H Hc Hi.
  pose proof (components_binding _ _ H Hc Hi) as Hb.
  split; [exact normalize_key_trims|].
  split; [intros nk cat; apply category_of_filed_under|].
  split; [exact Hb|].
  split; [|split].
  - intros g cs component text_id role_name Hg Hcs Hin Ht Hne Hr.
    assert (Hv : In (comp_data text_id role_name) (group_entries g)).
    { unfold group_entries. rewrite Hcs. apply in_flat_map.
      exists component. split; [assumption|].
      unfold component_entries. rewrite Ht.
      destruct text_id; [congruence|]. simpl. rewrite Hr. now left. }
    pose proof (@in_category_entries _ _ _ _ Hg eq_refl Hv) as Hv'.
    destruct (@binding_entries _ _ _ Hv') as (l & Hl & El).
    exists (filed_under core_order (normalize_key (fst g))), l.
    split; [apply filed_under_category|].
    split; [now rewrite Hb|]. split; [now rewrite El|exact El].
  - intros g Hg Hname. rewrite Hname, normalize_pd_ligand.
    split; [reflexivity|]. split.
    + apply category_of_filed_under. rewrite <- normalize_pd_ligand.
      symmetry. apply pd_ligand_filed_under.
    + rewrite Hb. unfold category_binding.
      exists (category_entries core_order items "ligand").
      split.
      * destruct (category_entries core_order items "ligand"); reflexivity.
      * intros v Hv. eapply in_category_entries; [eassumption| |eassumption].
        rewrite Hname. apply pd_ligand_filed_under.
  - rewrite Hb. unfold category_binding.
    destruct (category_entries core_order items "pd ligand 1") as [|v l] eqn:E.
    + reflexivity.
    + exfalso. assert (Hv : In v (category_entries core_order items "pd ligand 1"))
        by (rewrite E; now left).
      unfold category_entries in Hv. apply in_flat_map in Hv.
      destruct Hv as (g & _ & Hv).
      destruct (String.eqb (filed_under core_order (normalize_key (fst g)))
                           "pd ligand 1") eqn:F; [|destruct Hv].
      apply String.eqb_eq in F.
      pose proof pd_ligand_filed_under as Hpd.
      rewrite normalize_pd_ligand in Hpd.
      unfold filed_under in F, Hpd.
      destruct (find (matches (normalize_key (fst g))) core_order) as [k|] eqn:Ff.
      * subst k. apply find_some in Ff. destruct Ff as [Hin _].
        apply core_member in Hin. discriminate.
      * rewrite F in Ff. rewrite Ff in Hpd. discriminate.
Qed.

End ExtractorFacts.

(** ** The poller *)

Section PollerFacts.
Variable service : list Request -> positive * get_outcome.
Variable http_error_msg : Response -> string.
Context {unicode : PyStr.Unicode}.

Local Abbreviation pollS := (poll service http_error_msg).
Local Abbreviation fetchS := (fetch_query_result service http_error_msg).
Local Abbreviation raise_for_statusS := (raise_for_status http_error_msg).

(** One turn of the loop that gets a response. *)
Lemma poll_turn fuel task_id start_time w d resp :
  clock w - start_time < REACTION_TIMEOUT_S * 1000 ->
  service (poll_request task_id :: sent w) = (d, Responded resp) ->
  pollS (S fuel) task_id start_time w =
  let w1 := after_get w task_id d in
  if status_code resp =? 200 then Some (w1, ready_result resp)
  else if status_code resp =? 202 then
         pollS fuel task_id start_time (sleep 2000 w1)
  else if (status_code resp =? 400)
          && PyStr.contains "not ready" (PyStr.lower (text resp)) then
         pollS fuel task_id start_time (sleep 2000 w1)
  else match raise_for_statusS resp with
       | Ok _ => pollS fuel task_id start_time w1
       | Raise e => Some (w1, Raise e)
       | Abort c => Some (w1, Abort c)
       end.
Proof.
  intros Ht Hs. cbn [poll].
  apply Z.ltb_lt in Ht. rewrite Ht.
  unfold session_get. unfold poll_request in Hs. rewrite Hs.
  reflexivity.
Qed.

Lemma poll_turn_failed fuel task_id start_time w d e :
  clock w - start_time < REACTION_TIMEOUT_S * 1000 ->
  service (poll_request task_id :: sent w) = (d, Failed e) ->
  pollS (S fuel) task_id start_time w = Some (after_get w task_id d, Raise e).
Proof.
  intros Ht Hs. cbn [poll].
  apply Z.ltb_lt in Ht. rewrite Ht.
  unfold session_get. unfold poll_request in Hs. rewrite Hs.
  reflexivity.
Qed.

Lemma poll_timed_out fuel task_id start_time w :
  REACTION_TIMEOUT_S * 1000 <= clock w - start_time ->
  pollS (S fuel) task_id start_time w = Some (w, Raise (timeout_error task_id)).
Proof.
  intros Ht. cbn [poll].
  apply Z.ltb_ge in Ht. now rewrite Ht.
Qed.

(** Whatever holds of the world and survives a poll and a pause holds when
    the loop ends. *)
Lemma poll_preserves (P : World -> Prop) task_id start_time :
  (forall w d, P w -> P (after_get w task_id d)) ->
  (forall w, P w -> P (sleep 2000 w)) ->
  forall fuel w w' r,
    P w -> pollS fuel task_id start_time w = Some (w', r) -> P w'.
Proof.
  intros Hget Hsleep. induction fuel as [|fuel IH]; intros w w' r Hw H.
  - discriminate.
  - destruct (Z.lt_ge_cases (clock w - start_time) (REACTION_TIMEOUT_S * 1000))
      as [Ht|Ht].
    + destruct (service (poll_request task_id :: sent w)) as [d [resp|e]] eqn:Hs.
      * rewrite (poll_turn _ _ _ Ht Hs) in H. cbv zeta in H.
        specialize (Hget w d Hw).
        destruct (status_code resp =? 200); [inv H; assumption|].
        destruct (status_code resp =? 202); [eapply IH; [|exact H]; auto|].
        destruct ((status_code resp =? 400)
                  && PyStr.contains "not ready" (PyStr.lower (text resp)));
          [eapply IH; [|exact H]; auto|].
        destruct (raise_for_statusS resp);
          [eapply IH; [|exact H]; auto|inv H; assumption|inv H; assumption].
      * rewrite (poll_turn_failed _ _ _ Ht Hs) in H. inv H. auto.
    + rewrite (poll_timed_out fuel task_id _ _ Ht) in H. now inv H.
Qed.

(** The loop ends before the fuel does. *)
Lemma poll_total task_id start_time : forall fuel w,
  Z.max 0 (REACTION_TIMEOUT_S * 1000 - (clock w - start_time)) < Z.of_nat fuel ->
  pollS fuel task_id start_time w <> None.
Proof.
  induction fuel as [|fuel IH]; intros w Hf.
  - exfalso. lia.
  - destruct (Z.lt_ge_cases (clock w - start_time) (REACTION_TIMEOUT_S * 1000))
      as [Ht|Ht].
    + assert (Hnext : forall d delay, 0 <= delay ->
                 pollS fuel task_id start_time
                       (sleep delay (after_get w task_id d)) <> None).
      { intros d delay Hd. apply IH. cbn [clock sleep after_get]. lia. }
      assert (Hnext0 : forall d,
                 pollS fuel task_id start_time (after_get w task_id d) <> None).
      { intros d. apply IH. cbn [clock after_get]. lia. }
      destruct (service (poll_request task_id :: sent w)) as [d [resp|e]] eqn:Hs.
      * rewrite (poll_turn _ _ _ Ht Hs). cbv zeta.
        destruct (status_code resp =? 200); [discriminate|].
        destruct (status_code resp =? 202); [apply Hnext; lia|].
        destruct ((status_code resp =? 400)
                  && PyStr.contains "not ready" (PyStr.lower (text resp)));
          [apply Hnext; lia|].
        destruct (raise_for_statusS resp); [apply Hnext0| |]; discriminate.
      * rewrite (poll_turn_failed _ _ _ Ht Hs). discriminate.
    + rewrite (poll_timed_out fuel task_id _ _ Ht). discriminate.
Qed.

(** [fetch_query_result] is its loop: the default branch is never taken. *)
Lemma fetch_query_result_poll task_id w :
  pollS poll_fuel task_id (clock w) w = Some (fetchS task_id w).
Proof.
  unfold fetch_query_result.
  destruct (pollS poll_fuel task_id (clock w) w) eqn:E; [reflexivity|].
  exfalso. revert E. apply poll_total.
  unfold poll_fuel, REACTION_TIMEOUT_S. lia.
Qed.

Lemma fetch_preserves (P : World -> Prop) task_id :
  (forall w d, P w -> P (after_get w task_id d)) ->
  (forall w, P w -> P (sleep 2000 w)) ->
  forall w, P w -> P (fst (fetchS task_id w)).
Proof.
  intros Hget Hsleep w Hw.
  pose proof (fetch_query_result_poll task_id w) as H.
  destruct (fetchS task_id w) as [w' r].
  eapply poll_preserves; eauto.
Qed.

Lemma repeat_shift (A : Type) (a : A) n l :
  repeat a n ++ a :: l = a :: repeat a n ++ l.
Proof. induction n as [|n IH]; simpl; [reflexivity|]. now rewrite IH. Qed.

Lemma polling_time_length durations :
  2000 * Z.of_nat (List.length durations) <= polling_time durations.
Proof.
  induction durations as [|d ds IH]; [cbn; lia|].
  change (polling_time (d :: ds)) with (Z.pos d + 2000 + polling_time ds).
  cbn [List.length]. lia.
Qed.

(** A run of 202 answers followed by a 200, all polled before the ceiling. *)
Lemma poll_202_run task_id start_time durations : forall fuel w d final,
  (List.length durations < fuel)%nat ->
  (forall k dk, nth_error durations k = Some dk ->
     exists r, service (repeat (poll_request task_id) (S k) ++ sent w)
               = (dk, Responded r) /\ status_code r = 202) ->
  service (repeat (poll_request task_id) (S (List.length durations)) ++ sent w)
  = (d, Responded final) ->
  status_code final = 200 ->
  clock w - start_time + polling_time durations < REACTION_TIMEOUT_S * 1000 ->
  pollS fuel task_id start_time w =
  Some (mkWorld (clock w + polling_time durations + Z.pos d)
                (repeat (poll_request task_id) (S (List.length durations))
                        ++ sent w),
        ready_result final).
Proof.
  induction durations as [|d0 ds IH]; intros fuel w d final Hf H202 Hfin H200 Ht;
    (destruct fuel as [|fuel]; [simpl in Hf; lia|]).
  - simpl in Hfin. change (polling_time []) with 0 in *.
    assert (Ht0 : clock w - start_time < REACTION_TIMEOUT_S * 1000) by lia.
    rewrite (poll_turn _ _ _ Ht0 Hfin). cbv zeta.
    rewrite H200. simpl. unfold after_get. now rewrite Z.add_0_r.
  - pose proof (polling_time_length ds) as Hlen.
    destruct (H202 0%nat d0 eq_refl) as (r & Hs & Hr). simpl in Hs.
    change (polling_time (d0 :: ds))
      with (Z.pos d0 + 2000 + polling_time ds) in *.
    assert (Ht0 : clock w - start_time < REACTION_TIMEOUT_S * 1000) by lia.
    rewrite (poll_turn _ _ _ Ht0 Hs). cbv zeta. rewrite Hr.
    change (202 =? 200) with false. change (202 =? 202) with true. cbv iota.
    rewrite (IH fuel (sleep 2000 (after_get w task_id d0)) d final).
    + cbn [clock sent sleep after_get List.length repeat app].
      rewrite repeat_shift. f_equal. f_equal. f_equal. lia.
    + simpl in Hf. lia.
    + intros k dk Hk. destruct (H202 (S k) dk Hk) as (r' & Hs' & Hr').
      exists r'. split; [|assumption]. simpl sent.
      rewrite repeat_shift. exact Hs'.
    + simpl sent. rewrite repeat_shift. exact Hfin.
    + assumption.
    + cbn [clock sleep after_get]. lia.
Qed.

(** C9. A poll answered 200 ends the polling with the parsed body, and with
    the empty list when the body does not parse; so a run of 202 answers
    followed by a 200, each polled before the ceiling, returns the body of
    the 200 and raises nothing. *)
Theorem poller_ready_on_200 task_id w durations d final :
  (forall k dk, nth_error durations k = Some dk ->
     exists r, service (repeat (poll_request task_id) (S k) ++ sent w)
               = (dk, Responded r) /\ status_code r = 202) ->
  service (repeat (poll_request task_id) (S (List.length durations)) ++ sent w)
  = (d, Responded final) ->
  status_code final = 200 ->
  polling_time durations < REACTION_TIMEOUT_S * 1000 ->
  sent (fst (fetchS task_id w))
  = repeat (poll_request task_id) (S (List.length durations)) ++ sent w /\
  (forall v, json final = Ok v -> snd (fetchS task_id w) = Ok v) /\
  (forall m, json final = Raise (Exn JSONDecodeError m) ->
             snd (fetchS task_id w) = Ok (PList [])).
Proof.
  intros H202 Hfin H200 Ht.
  pose proof (polling_time_length durations) as Hlen.
  pose proof (fetch_query_result_poll task_id w) as Hp.
  rewrite (@poll_202_run task_id (clock w) durations poll_fuel w d final) in Hp;
    try assumption.
  - injection Hp as Hp. rewrite <- Hp. simpl. unfold ready_result.
    split; [reflexivity|].
    split; [intros v ->; reflexivity|intros m ->; reflexivity].
  - unfold poll_fuel, REACTION_TIMEOUT_S in *. lia.
  - lia.
Qed.

(** C3, as the code has it.  A poll answered with a status from 400 to 599,
    other than 400 with a "not ready" body, ends the polling at once with
    an HTTP error: no pause and no further request. *)
Theorem poller_fails_on_error_status fuel task_id start_time w d resp :
  clock w - start_time < REACTION_TIMEOUT_S * 1000 ->
  service (poll_request task_id :: sent w) = (d, Responded resp) ->
  400 <= status_code resp < 600 ->
  ~ (status_code resp = 400 /\
     PyStr.contains "not ready" (PyStr.lower (text resp)) = true) ->
  pollS (S fuel) task_id start_time w
  = Some (after_get w task_id d, Raise (Exn HTTPError (http_error_msg resp))) /\
  (start_time = clock w ->
   fetchS task_id w
   = (after_get w task_id d, Raise (Exn HTTPError (http_error_msg resp)))).
Proof.
  intros Ht Hs Hrange Hnr.
  assert (Hturn : forall f,
             pollS (S f) task_id start_time w
             = Some (after_get w task_id d,
                     Raise (Exn HTTPError (http_error_msg resp)))).
  { intros f. rewrite (poll_turn _ _ _ Ht Hs). cbv zeta.
    destruct (Z.eqb_spec (status_code resp) 200) as [E|_]; [lia|].
    destruct (Z.eqb_spec (status_code resp) 202) as [E|_]; [lia|].
    destruct (Z.eqb_spec (status_code resp) 400) as [E|_]; simpl.
    - destruct (PyStr.contains "not ready" (PyStr.lower (text resp))) eqn:C;
        [exfalso; apply Hnr; auto|].
      unfold raise_for_status. rewrite E. reflexivity.
    - unfold raise_for_status.
      destruct (Z.leb_spec 400 (status_code resp)); [|lia].
      destruct (Z.ltb_spec (status_code resp) 600); [|lia].
      reflexivity. }
  split; [apply Hturn|].
  intros ->. pose proof (fetch_query_result_poll task_id w) as Hp.
  unfold poll_fuel in Hp. rewrite Hturn in Hp. now injection Hp as <-.
Qed.

End PollerFacts.

(** A 304 answer is none of the three, and the poller polls again: here
    the second poll is answered 200 and the polling returns its body. *)
Lemma status_304_polls_again :
  ~ fails_on_every_other_status Demo.service_304 Demo.msg Demo.unicode.
Proof.
  intros H.
  pose (resp := mkResponse 304 "" Demo.no_json).
  assert (Hs : Demo.service_304 (poll_request "t" :: sent Demo.w0)
               = (25%positive, Responded resp)) by reflexivity.
  assert (H200 : status_code resp <> 200) by discriminate.
  assert (H202 : status_code resp <> 202) by discriminate.
  destruct (H "t" Demo.w0 25%positive resp Hs H200 H202) as [e He].
  { intros [E _]. discriminate. }
  vm_compute in He. discriminate.
Qed.

(** ** The orchestrator *)

Section OrchestratorFacts.
Variable service : list Request -> positive * get_outcome.
Variable http_error_msg : Response -> string.
Variable core_order : list string.
Context {schema : OrdSchema}.
Variable max_datasets : option Z.
Variable per_dataset_limit : Z.
Context {unicode : PyStr.Unicode}.

Local Abbreviation fetchS := (fetch_query_result service http_error_msg).
Local Abbreviation submitS := (submit_query service http_error_msg).
Local Abbreviation dataset_tryS :=
  (dataset_try service http_error_msg core_order per_dataset_limit).
Local Abbreviation datasets_loopS :=
  (datasets_loop service http_error_msg core_order max_datasets per_dataset_limit).

Lemma is_submit_poll_request task_id : is_submit (poll_request task_id) = false.
Proof. reflexivity. Qed.

Lemma submitted_sleep ms w : submitted (sleep ms w) = submitted w.
Proof. reflexivity. Qed.

Lemma fetch_submitted task_id w :
  submitted (fst (fetchS task_id w)) = submitted w.
Proof.
  apply (@fetch_preserves service http_error_msg unicode
                          (fun w' => submitted w' = submitted w)); auto.
Qed.

Lemma submit_query_submitted dataset_id limit w :
  submitted (fst (submitS dataset_id limit w)) = submitted w ++ [dataset_id].
Proof.
  unfold submit_query, iobind, session_get, lift, ret.
  destruct (service _) as [d [resp|e]];
    [destruct (raise_for_status http_error_msg resp)|]; reflexivity.
Qed.

Lemma dataset_try_submitted dataset_id num_rxns all_results w :
  submitted (fst (dataset_tryS dataset_id num_rxns all_results w))
  = submitted w ++ [dataset_id].
Proof.
  unfold dataset_try.
  set (limit := if per_dataset_limit >? 0 then PInt per_dataset_limit else num_rxns).
  pose proof (submit_query_submitted dataset_id limit w) as Hs.
  unfold iobind at 1.
  destruct (submitS dataset_id limit w) as [w1 [task_id| |]]; simpl in Hs;
    try exact Hs.
  pose proof (fetch_submitted task_id w1) as Hf.
  unfold iobind at 1.
  destruct (fetchS task_id w1) as [w2 [items| |]]; simpl in Hf;
    try (simpl; congruence).
  unfold iobind, lift.
  destruct (py_len items); simpl; try congruence.
  destruct (py_iter items); simpl; congruence.
Qed.

Lemma item_step_some item dataset_id data :
  item_step core_order item dataset_id = Ok (Some data) ->
  extractor_record core_order dataset_id data.
Proof.
  unfold item_step. intros H.
  destruct (py_get item "proto" PNone) as [proto_b64| |]; simpl in H;
    try discriminate.
  destruct (negb (truthy proto_b64)); [discriminate|].
  destruct (decode_reaction_proto proto_b64) as [rxn| |]; simpl in H;
    try discriminate.
  destruct (extract_reaction_data core_order rxn dataset_id) as [r| |] eqn:E;
    simpl in H; try discriminate.
  inv H. now exists rxn.
Qed.

(** The records a dataset appends are extractor records, after what was
    there. *)
Lemma items_loop_extends dataset_id items : forall all_results all_results1 r,
  items_loop core_order items dataset_id all_results = (all_results1, r) ->
  exists recs,
    all_results1 = all_results ++ recs /\
    Forall (extractor_record core_order dataset_id) recs.
Proof.
  induction items as [|item items IH]; simpl; intros all_results all_results1 r H.
  - inv H. exists []. split; [now rewrite app_nil_r|constructor].
  - destruct (item_step core_order item dataset_id) as [[data|]| |] eqn:E.
    + destruct (IH _ _ _ H) as (recs & -> & Hr).
      exists (data :: recs). split; [now rewrite <- app_assoc|].
      constructor; [eapply item_step_some; eassumption|assumption].
    + eauto.
    + inv H. exists []. split; [now rewrite app_nil_r|constructor].
    + inv H. exists []. split; [now rewrite app_nil_r|constructor].
Qed.

Lemma dataset_try_extends dataset_id num_rxns all_results w w1 all_results1 r :
  dataset_tryS dataset_id num_rxns all_results w = (w1, (all_results1, r)) ->
  exists recs,
    all_results1 = all_results ++ recs /\
    Forall (extractor_record core_order dataset_id) recs.
Proof.
  unfold dataset_try. intros H.
  destruct (iobind _ _ w) as [w' [items| |]].
  - injection H as _ H. eapply items_loop_extends. exact H.
  - inv H. exists []. split; [now rewrite app_nil_r|constructor].
  - inv H. exists []. split; [now rewrite app_nil_r|constructor].
Qed.

(** One turn of the dataset loop that gets past the limit check. *)
Lemma datasets_loop_cons ds rest all_results processed_count w dataset_id num_rxns :
  py_get ds "dataset_id" PNone = Ok dataset_id ->
  py_get ds "num_reactions" (PInt 0) = Ok num_rxns ->
  limit_reached max_datasets processed_count = false ->
  datasets_loopS (ds :: rest) all_results processed_count w =
  let '(w1, (all_results1, r)) :=
    dataset_tryS dataset_id num_rxns all_results w in
  match r with
  | Ok _ => datasets_loopS rest all_results1 (processed_count + 1) (sleep 1000 w1)
  | Raise e =>
      datasets_loopS rest (all_results1 ++ [error_record dataset_id e])
                     processed_count (sleep 1000 w1)
  | Abort c => (w1, Abort c)
  end.
Proof.
  intros Hid Hn Hl. cbn [datasets_loop]. unfold iobind, lift.
  rewrite Hid, Hn, Hl. reflexivity.
Qed.

Lemma extractor_record_has_ids dataset_id r :
  extractor_record core_order dataset_id r ->
  record_get r "dataset_id" = Some dataset_id /\ lacks_reaction_id r = false.
Proof.
  intros [rxn H]. apply extract_record_ids in H.
  destruct H as [Hd (rid & _ & Hr)]. split; [assumption|].
  unfold lacks_reaction_id. now rewrite Hr.
Qed.

Lemma dataset_errors_app l1 l2 :
  dataset_errors (l1 ++ l2) = (dataset_errors l1 + dataset_errors l2)%nat.
Proof. unfold dataset_errors. now rewrite filter_app, length_app. Qed.

Lemma dataset_errors_extractor dataset_id recs :
  Forall (extractor_record core_order dataset_id) recs ->
  dataset_errors recs = 0%nat.
Proof.
  induction 1 as [|r recs Hr _ IH]; [reflexivity|].
  unfold dataset_errors in *. simpl.
  destruct (extractor_record_has_ids Hr) as [_ ->]. exact IH.
Qed.

Lemma dataset_errors_error_record dataset_id e :
  dataset_errors [error_record dataset_id e] = 1%nat.
Proof. reflexivity. Qed.

(** What a run of the dataset loop that returns has done. *)
Lemma datasets_loop_run : forall dss all_results c w w' out c',
  datasets_loopS dss all_results c w = (w', Ok (out, c')) ->
  exists k more,
    (k <= List.length dss)%nat /\
    submitted w' = submitted w ++ map dataset_id_of (firstn k dss) /\
    out = all_results ++ more /\
    Z.of_nat k = (c' - c) + Z.of_nat (dataset_errors more) /\
    c <= c' /\
    (forall m, max_datasets = Some m -> c <= m -> c' <= m) /\
    (forall m, max_datasets = Some m -> (k < List.length dss)%nat -> m <= c') /\
    (max_datasets = None -> k = List.length dss) /\
    Forall (fun r => exists ds,
                In ds (firstn k dss) /\
                output_record core_order (dataset_id_of ds) r) more.
Proof.
  induction dss as [|ds rest IH]; intros all_results c w w' out c' H.
  - inv H. exists 0%nat, []. simpl.
    rewrite !app_nil_r. repeat split; try lia; try constructor.
  - cbn [datasets_loop] in H. unfold iobind, lift in H.
    destruct (py_get ds "dataset_id" PNone) as [dataset_id| |] eqn:Hid;
      try discriminate.
    destruct (py_get ds "num_reactions" (PInt 0)) as [num_rxns| |] eqn:Hn;
      try discriminate.
    assert (Hof : dataset_id_of ds = dataset_id).
    { unfold dataset_id_of. now rewrite Hid. }
    destruct (limit_reached max_datasets c) eqn:Hl.
    + inv H. exists 0%nat, []. simpl.
      rewrite !app_nil_r. repeat split; try lia; try constructor.
      * intros m Hm _. unfold limit_reached in Hl. rewrite Hm in Hl. lia.
      * intros Hm. unfold limit_reached in Hl. rewrite Hm in Hl. discriminate.
    + pose proof (dataset_try_submitted dataset_id num_rxns all_results w) as Hsub.
      destruct (dataset_tryS dataset_id num_rxns all_results w)
        as [w1 [all_results1 r]] eqn:Ht.
      simpl in Hsub.
      destruct (dataset_try_extends _ _ _ _ Ht) as (recs & -> & Hrecs).
      pose proof (dataset_errors_extractor Hrecs) as Hzero.
      assert (Hout : forall k, Forall (fun r => exists ds0,
                         In ds0 (ds :: firstn k rest) /\
                         output_record core_order (dataset_id_of ds0) r) recs).
      { intros k. eapply Forall_impl; [|exact Hrecs]. intros r0 Hr0.
        exists ds. split; [now left|]. rewrite Hof. now left. }
      assert (Hweak : forall k more,
                 Forall (fun r => exists ds0,
                             In ds0 (firstn k rest) /\
                             output_record core_order (dataset_id_of ds0) r) more ->
                 Forall (fun r => exists ds0,
                             In ds0 (ds :: firstn k rest) /\
                             output_record core_order (dataset_id_of ds0) r) more).
      { intros k more. apply Forall_impl. intros r0 (ds0 & Hin & Ho).
        exists ds0. split; [now right|assumption]. }
      destruct r as [[]|e|code]; [| |discriminate].
      * destruct (IH _ _ _ _ _ _ H)
          as (k & more & Hk & Hs & -> & Hcount & Hle & Hmax & Hstop & Hall & Hrec).
        exists (S k), (recs ++ more). cbn [List.length firstn map].
        rewrite submitted_sleep, Hsub in Hs.
        rewrite dataset_errors_app, Hzero.
        repeat split; try lia.
        -- rewrite Hs, Hof, <- app_assoc. reflexivity.
        -- now rewrite app_assoc.
        -- intros m Hm Hc. apply (Hmax m Hm).
           unfold limit_reached in Hl. rewrite Hm in Hl. lia.
        -- intros m Hm Hlt. apply (Hstop m Hm). lia.
        -- intros Hm. now rewrite (Hall Hm).
        -- apply Forall_app. split; [apply Hout|now apply Hweak].
      * destruct (IH _ _ _ _ _ _ H)
          as (k & more & Hk & Hs & -> & Hcount & Hle & Hmax & Hstop & Hall & Hrec).
        exists (S k), (recs ++ error_record dataset_id e :: more).
        cbn [List.length firstn map].
        rewrite submitted_sleep, Hsub in Hs.
        rewrite dataset_errors_app, Hzero.
        change (error_record dataset_id e :: more)
          with ([error_record dataset_id e] ++ more).
        rewrite dataset_errors_app, dataset_errors_error_record.
        repeat split; try lia.
        -- rewrite Hs, Hof, <- app_assoc. reflexivity.
        -- now rewrite <- !app_assoc.
        -- intros m Hm Hc. now apply (Hmax m Hm).
        -- intros m Hm Hlt. apply (Hstop m Hm). lia.
        -- intros Hm. now rewrite (Hall Hm).
        -- apply Forall_app. split; [apply Hout|].
           apply Forall_app. split; [|now apply Hweak].
           constructor; [|constructor].
           exists ds. split; [now left|]. rewrite Hof. right. now exists e.
Qed.

Lemma items_loop_app dataset_id pre : forall post all_results,
  items_loop core_order (pre ++ post) dataset_id all_results =
  match items_loop core_order pre dataset_id all_results with
  | (all_results1, Ok _) => items_loop core_order post dataset_id all_results1
  | stopped => stopped
  end.
Proof.
  induction pre as [|item pre IH]; intros post all_results; simpl; [reflexivity|].
  destruct (item_step core_order item dataset_id) as [[data|]| |];
    try reflexivity; apply IH.
Qed.

Local Abbreviation scrapeS :=
  (scrape_ord_advanced service http_error_msg core_order
                       max_datasets per_dataset_limit).

(** [scrape_ord_advanced] returns what its loop returns, run from the empty
    list and a zero count over the selected datasets. *)
Lemma scrape_runs_loop dataset_ids w w' out :
  scrapeS dataset_ids w = (w', Ok out) ->
  exists w1 dss c', datasets_loopS dss [] 0 w1 = (w', Ok (out, c')).
Proof.
  unfold scrape_ord_advanced, iobind, lift, ret. intros H.
  destruct (session_get service _ _ _ w) as [w1 [resp| |]]; try discriminate.
  destruct (json resp) as [datasets| |]; try discriminate.
  destruct (select_datasets datasets dataset_ids) as [selected| |];
    try discriminate.
  destruct (py_len selected); try discriminate.
  destruct (py_iter selected) as [dss| |]; try discriminate.
  destruct (datasets_loopS dss [] 0 w1) as [w2 [[out' c']| |]] eqn:L;
    try discriminate.
  inv H. eauto.
Qed.

(** C1, as the code has it.  The datasets of the list are taken up in list
    order, a query being submitted for each one taken up; the count that is
    compared with [max_datasets] is the number of them that completed
    without a dataset-level error, so it never exceeds a non-negative
    [max_datasets] and the loop stops early only once it has reached it;
    with [max_datasets] unset every dataset of the list is taken up, and
    [main] hands over an unset [max_datasets] for 0 when no allow-list is
    given. *)
Theorem datasets_in_order_until_limit dss w w' out c' :
  datasets_loopS dss [] 0 w = (w', Ok (out, c')) ->
  (exists k,
      (k <= List.length dss)%nat /\
      submitted w' = submitted w ++ map dataset_id_of (firstn k dss) /\
      Z.of_nat k = c' + Z.of_nat (dataset_errors out) /\
      (forall m, max_datasets = Some m -> 0 <= m ->
                 c' <= m /\ ((k < List.length dss)%nat -> c' = m)) /\
      (max_datasets = None -> k = List.length dss)) /\
  (forall args, arg_max_datasets args = 0 ->
                ids_given (main_ds_ids args) = false ->
                main_max_datasets args = None).
Proof.
  intros H. split.
  - destruct (datasets_loop_run _ _ _ _ H)
      as (k & more & Hk & Hs & -> & Hcount & Hle & Hmax & Hstop & Hall & _).
    exists k. simpl. repeat split; try assumption; try lia.
    + now apply (Hmax m).
    + intros Hlt. pose proof (Hmax m H0 H1). pose proof (Hstop m H0 Hlt). lia.
  - intros args H0 Hids. unfold main_max_datasets. rewrite H0, Hids. reflexivity.
Qed.

(** C2, as the code has it.  A record returned by the extractor, of either
    shape, carries the dataset id it was given and the reaction id of its
    record; the record appended for a failed dataset carries the dataset id
    and no reaction id; and every record of the output list is one or the
    other, for a dataset whose query was submitted. *)
Theorem output_records_carry_ids :
  (forall rxn dataset_id r,
      extract_reaction_data core_order rxn dataset_id = Ok r ->
      record_get r "dataset_id" = Some dataset_id /\
      exists rid, reaction_id_value rxn = Ok rid /\
                  record_get r "reaction_id" = Some (PStr rid)) /\
  (forall dataset_id e,
      record_get (error_record dataset_id e) "dataset_id" = Some dataset_id /\
      record_get (error_record dataset_id e) "reaction_id" = None) /\
  (forall dataset_ids w w' out,
      scrapeS dataset_ids w = (w', Ok out) ->
      Forall (fun r => exists dataset_id,
                  In dataset_id (submitted w') /\
                  record_get r "dataset_id" = Some dataset_id /\
                  output_record core_order dataset_id r) out).
Proof.
  split; [intros rxn dataset_id r; apply extract_record_ids|].
  split; [intros dataset_id e; split; reflexivity|].
  intros dataset_ids w w' out H.
  destruct (scrape_runs_loop _ _ H) as (w1 & dss & c' & L).
  destruct (datasets_loop_run _ _ _ _ L)
    as (k & more & _ & Hs & -> & _ & _ & _ & _ & _ & Hrec).
  simpl. eapply Forall_impl; [|exact Hrec].
  intros r (ds & Hin & Ho). exists (dataset_id_of ds).
  split; [rewrite Hs; apply in_or_app; right; now apply in_map|].
  split; [|assumption].
  destruct Ho as [Hx|[e ->]]; [|reflexivity].
  now destruct (extractor_record_has_ids Hx).
Qed.


End OrchestratorFacts.

(** ** More on strings *)

Lemma lstrip_by_head p s : head_is p (PyStr.lstrip_by p s) = false.
Proof.
  induction s as [|c s IH]; simpl; [reflexivity|].
  destruct (p c) eqn:E; [exact IH|]. simpl. exact E.
Qed.

Lemma rstrip_by_head p s :
  head_is p s = false -> head_is p (PyStr.rstrip_by p s) = false.
Proof.
  destruct s as [|c s]; simpl; [reflexivity|]. intros E.
  destruct (PyStr.rstrip_by p s); [rewrite E|]; simpl; [exact E|exact E].
Qed.

Lemma rstrip_by_last p s : last_is p (PyStr.rstrip_by p s) = false.
Proof.
  induction s as [|c s IH]; simpl; [reflexivity|].
  destruct (PyStr.rstrip_by p s) as [|c' r] eqn:R.
  - destruct (p c) eqn:E; simpl; [reflexivity|exact E].
  - exact IH.
Qed.

Lemma lstrip_by_fixed p s : head_is p s = false -> PyStr.lstrip_by p s = s.
Proof. destruct s as [|c s]; simpl; [reflexivity|]. now intros ->. Qed.

Lemma rstrip_by_fixed p s : last_is p s = false -> PyStr.rstrip_by p s = s.
Proof.
  induction s as [|c s IH]; [reflexivity|].
  destruct s as [|c' s'].
  - simpl. now intros ->.
  - intros H. change (last_is p (String c' s') = false) in H.
    change (PyStr.rstrip_by p (String c (String c' s')))
      with (match PyStr.rstrip_by p (String c' s') with
            | EmptyString => if p c then EmptyString else String c EmptyString
            | r' => String c r'
            end).
    now rewrite (IH H).
Qed.

Lemma strip_by_ends p s :
  head_is p (PyStr.strip_by p s) = false /\
  last_is p (PyStr.strip_by p s) = false.
Proof.
  unfold PyStr.strip_by. split.
  - apply rstrip_by_head, lstrip_by_head.
  - apply rstrip_by_last.
Qed.

Lemma strip_by_idempotent p s :
  PyStr.strip_by p (PyStr.strip_by p s) = PyStr.strip_by p s.
Proof.
  destruct (strip_by_ends p s) as [Hh Hl].
  unfold PyStr.strip_by at 1.
  rewrite (lstrip_by_fixed _ _ Hh). now apply rstrip_by_fixed.
Qed.

Lemma lower_char_not_upper c : is_upper (PyStr.lower_char c) = false.
Proof. destruct c as [[] [] [] [] [] [] [] []]; reflexivity. Qed.

Lemma replace_char_free a b s :
  a <> b ->
  string_forall (fun c => negb (Ascii.eqb c a)) (PyStr.replace_char a b s) = true.
Proof.
  intros Hab. induction s as [|c s IH]; simpl; [reflexivity|].
  rewrite IH, andb_true_r.
  destruct (Ascii.eqb c a) eqn:E; [|now rewrite E].
  apply negb_true_iff, Ascii.eqb_neq. congruence.
Qed.

Lemma normalized_ascii_alphabet s :
  string_forall (fun c => negb (Ascii.eqb c "_") && negb (is_upper c))
                (PyStr.replace_char "_" " " (PyStr.ascii_lower s)) = true.
Proof.
  induction s as [|c s IH]; simpl; [reflexivity|].
  rewrite IH, andb_true_r.
  destruct (Ascii.eqb (PyStr.lower_char c) "_") eqn:E; [reflexivity|].
  rewrite E. simpl. now rewrite lower_char_not_upper.
Qed.

Section NormalizeFacts.
Context {unicode : PyStr.Unicode}.

(** X1. A normalized group name holds no underscore, whatever the
    input-group name.  Where the name is ASCII, the normalized name is the
    trimmed name with A..Z lowered and a blank for every underscore, and it
    holds no upper-case ASCII letter either. *)
Theorem normalize_key_alphabet input_key :
  string_forall (fun c => negb (Ascii.eqb c "_")) (normalize_key input_key)
  = true /\
  (PyStr.is_ascii input_key = true ->
   normalize_key input_key
   = PyStr.replace_char "_" " " (PyStr.ascii_lower (PyStr.strip input_key)) /\
   string_forall (fun c => negb (Ascii.eqb c "_") && negb (is_upper c))
                 (normalize_key input_key) = true).
Proof.
  unfold normalize_key. split.
  - apply replace_char_free. discriminate.
  - intros Ha. rewrite PyStr.lower_ascii by now apply strip_ascii.
    split; [reflexivity|apply normalized_ascii_alphabet].
Qed.

End NormalizeFacts.

(** ** More on the extractor *)

Section ExtractorMore.
Variable core_order : list string.
Context {schema : OrdSchema}.
Context {unicode : PyStr.Unicode}.

Lemma identifiers_loop_ok ids vals :
  Forall2 (fun i v => value i = Ok v) ids vals ->
  forall texts,
    identifiers_loop ids texts = Ok (texts ++ filter PyStr.nonempty vals).
Proof.
  induction 1 as [|i v ids vals Hv _ IH]; intros texts; simpl.
  - now rewrite app_nil_r.
  - rewrite Hv. simpl. destruct (PyStr.nonempty v); [|apply IH].
    rewrite IH. now rewrite <- app_assoc.
Qed.

(** X2. The identifier text of a compound is its non-empty identifier
    values, in their order, joined by "; "; a value that cannot be read
    makes the extraction of the text raise. *)
Theorem identifier_text_joins_values compound ids :
  identifiers compound = Ok ids ->
  (forall vals,
      Forall2 (fun i v => value i = Ok v) ids vals ->
      extract_identifiers compound
      = Ok (PyStr.join "; " (filter PyStr.nonempty vals))) /\
  (forall pre vals i post e,
      ids = pre ++ i :: post ->
      Forall2 (fun i v => value i = Ok v) pre vals ->
      value i = Raise e ->
      extract_identifiers compound = Raise e).
Proof.
  intros Hids. unfold extract_identifiers. rewrite Hids. simpl. split.
  - intros vals Hv. now rewrite (identifiers_loop_ok Hv).
  - intros pre vals i post e -> Hpre Hi.
    assert (L : forall texts,
               identifiers_loop (pre ++ i :: post) texts = Raise e).
    { clear Hids.
      induction Hpre as [|j v pre vals Hj _ IH]; intros texts; simpl.
      - now rewrite Hi.
      - rewrite Hj. simpl. destruct (PyStr.nonempty v); apply IH. }
    now rewrite L.
Qed.

Lemma entries_total_filed rs k cd :
  entries_total (assoc_setdefault_update rs k [] (append_entry cd))
  = S (entries_total rs).
Proof.
  unfold entries_total.
  induction rs as [|[k' l] rs IH]; simpl; [reflexivity|].
  destruct (String.eqb k' k); simpl.
  - unfold append_entry. rewrite length_app. simpl. lia.
  - rewrite IH. lia.
Qed.

Lemma entries_total_initial : entries_total (initial_roles core_order) = 0%nat.
Proof.
  unfold entries_total, initial_roles.
  induction core_order as [|k ks IH]; simpl; [reflexivity|exact IH].
Qed.

Lemma components_total_value rs :
  match components_value rs with
  | PDict comps => components_total comps
  | _ => 0%nat
  end = entries_total rs.
Proof.
  unfold components_value, components_total, entries_total.
  induction rs as [|[k l] rs IH]; simpl; [reflexivity|]. now rewrite IH.
Qed.

Lemma component_step_total normalized_key component rs rs' :
  keys_present core_order rs ->
  component_step core_order normalized_key component rs = Ok rs' ->
  keys_present core_order rs' /\
  entries_total rs' = (entries_total rs + if kept component then 1 else 0)%nat.
Proof.
  intros Hk H.
  destruct (component_step_cases _ _ Hk H)
    as [[He ->]|(text_id & role_name & He & Hne & _ & ->)]; unfold kept; rewrite He.
  - split; [assumption|]. simpl. lia.
  - split; [now apply keys_present_filed|].
    rewrite entries_total_filed. destruct text_id; [congruence|]. simpl. lia.
Qed.

Lemma components_loop_total normalized_key cs : forall rs rs',
  keys_present core_order rs ->
  components_loop core_order normalized_key cs rs = Ok rs' ->
  keys_present core_order rs' /\
  entries_total rs' = (entries_total rs + List.length (filter kept cs))%nat.
Proof.
  induction cs as [|c cs IH]; simpl; intros rs rs' Hk H.
  - inv H. split; [assumption|lia].
  - step_result; try discriminate.
    destruct (component_step_total _ _ Hk E) as [Hk1 Ht1].
    destruct (IH _ _ Hk1 H) as [Hk2 Ht2]. split; [assumption|].
    rewrite Ht2, Ht1. destruct (kept c); simpl; lia.
Qed.

Lemma inputs_loop_total items : forall rs rs',
  keys_present core_order rs ->
  inputs_loop core_order items rs = Ok rs' ->
  entries_total rs' = (entries_total rs + list_sum (map kept_in_group items))%nat.
Proof.
  induction items as [|[input_key reaction_input] items IH]; simpl;
    intros rs rs' Hk H.
  - inv H. lia.
  - step_result; try discriminate. step_result; try discriminate.
    destruct (components_loop_total _ _ Hk E0) as [Hk1 Ht1].
    rewrite (IH _ _ Hk1 H), Ht1.
    unfold kept_in_group at 2. simpl. rewrite E. lia.
Qed.

Lemma initial_keys_present : keys_present core_order (initial_roles core_order).
Proof.
  intros k Hin. unfold initial_roles. now rewrite assoc_get_init.
Qed.

(** X3. Every kept component is filed exactly once: the number of entries
    over all categories of an extracted record is the number of components,
    over all input groups, that have identifier text. *)
Theorem entries_count_kept_components rxn dataset_id r comps items :
  extract_reaction_data core_order rxn dataset_id = Ok r ->
  record_get r "components" = Some (PDict comps) ->
  inputs_items rxn = Ok items ->
  components_total comps = list_sum (map kept_in_group items).
Proof.
  intros H Hc Hi. apply extract_reaction_data_shape in H.
  destruct H as [(b & items' & rs & rid & _ & Hi' & Hl & _ & ->)
                |(e & rid & _ & ->)]; [|discriminate].
  rewrite Hi in Hi'. inv Hi'.
  pose proof (components_total_value rs) as Hv.
  simpl in Hc. unfold components_value in *. inv Hc.
  rewrite Hv, (inputs_loop_total _ initial_keys_present Hl).
  now rewrite entries_total_initial.
Qed.

Lemma assoc_get_none_keys (V : Type) (d : list (string * V)) k :
  assoc_get d k = None <-> ~ In k (map fst d).
Proof.
  induction d as [|[k' v] d IH]; simpl; [tauto|].
  destruct (String.eqb_spec k' k) as [->|Hne].
  - split; [discriminate|]. intros H. exfalso. apply H. now left.
  - rewrite IH. split; [intros H [E|E]; [congruence|tauto]|tauto].
Qed.

Lemma keys_filed (V : Type) (d : list (string * V)) k v0 f :
  map fst (assoc_setdefault_update d k v0 f)
  = match assoc_get d k with
    | Some _ => map fst d
    | None => map fst d ++ [k]
    end.
Proof.
  induction d as [|[k' v] d IH]; simpl; [reflexivity|].
  destruct (String.eqb k' k); simpl; [reflexivity|].
  rewrite IH. now destruct (assoc_get d k).
Qed.

Lemma filed_under_cases normalized_key :
  In (filed_under core_order normalized_key) core_order \/
  filed_under core_order normalized_key = normalized_key.
Proof.
  unfold filed_under.
  destruct (find (matches normalized_key) core_order) as [k|] eqn:F;
    [left|now right].
  now apply find_some in F.
Qed.

Lemma keys_shape_present names rs :
  keys_shape core_order names rs -> keys_present core_order rs.
Proof.
  intros (_ & dyn & Hk & _) k Hin. rewrite assoc_get_none_keys, Hk.
  intros H. apply H. apply in_or_app. now left.
Qed.

Lemma component_step_keys names normalized_key component rs rs' :
  In normalized_key names ->
  keys_shape core_order names rs ->
  component_step core_order normalized_key component rs = Ok rs' ->
  keys_shape core_order names rs'.
Proof.
  intros Hn Hs H. pose proof (keys_shape_present Hs) as Hk.
  destruct (component_step_cases _ _ Hk H)
    as [[_ ->]|(text_id & role_name & _ & _ & _ & ->)]; [assumption|].
  destruct Hs as (Hnd & dyn & Hkeys & Hdyn).
  unfold keys_shape. rewrite keys_filed.
  destruct (assoc_get rs (filed_under core_order normalized_key)) eqn:G.
  - split; [assumption|]. exists dyn. auto.
  - apply assoc_get_none_keys in G.
    assert (Hf : filed_under core_order normalized_key = normalized_key).
    { destruct (filed_under_cases normalized_key) as [Hin|E]; [|exact E].
      exfalso. apply G. rewrite Hkeys. apply in_or_app. now left. }
    rewrite Hf in *. split.
    + apply NoDup_app; try assumption.
      * repeat constructor. simpl. tauto.
      * intros x Hx [<-|[]]. tauto.
    + exists (dyn ++ [normalized_key]). split.
      * now rewrite Hkeys, app_assoc.
      * apply Forall_app. split; [assumption|]. repeat constructor. assumption.
Qed.

Lemma components_loop_keys names normalized_key cs : forall rs rs',
  In normalized_key names ->
  keys_shape core_order names rs ->
  components_loop core_order normalized_key cs rs = Ok rs' ->
  keys_shape core_order names rs'.
Proof.
  induction cs as [|c cs IH]; simpl; intros rs rs' Hn Hs H.
  - now inv H.
  - step_result; try discriminate.
    eapply IH; [assumption| |exact H]. eapply component_step_keys; eassumption.
Qed.

Lemma inputs_loop_keys names items : forall rs rs',
  incl (map (fun g => normalize_key (fst g)) items) names ->
  keys_shape core_order names rs ->
  inputs_loop core_order items rs = Ok rs' ->
  keys_shape core_order names rs'.
Proof.
  induction items as [|[input_key reaction_input] items IH]; simpl;
    intros rs rs' Hn Hs H.
  - now inv H.
  - step_result; try discriminate. step_result; try discriminate.
    eapply IH; [|eapply components_loop_keys; [|exact Hs|exact E0]|exact H].
    + intros x Hx. apply Hn. now right.
    + apply Hn. now left.
Qed.

Lemma core_categories_nodup : NoDup CORE_CATEGORIES.
Proof.
  unfold CORE_CATEGORIES.
  repeat (constructor; [simpl; intuition discriminate|]). constructor.
Qed.

(** X4. The components mapping of an extracted record has no key twice;
    its keys are the six core names, in the iteration order of the category
    set, followed by dynamic keys, each the normalized name of an input
    group of the record. *)
Theorem component_keys_core_then_groups rxn dataset_id r comps items :
  Permutation CORE_CATEGORIES core_order ->
  extract_reaction_data core_order rxn dataset_id = Ok r ->
  record_get r "components" = Some (PDict comps) ->
  inputs_items rxn = Ok items ->
  NoDup (map fst comps) /\
  exists dyn,
    map fst comps = core_order ++ dyn /\
    Forall (fun k => exists name,
                In name (map fst items) /\ k = normalize_key name) dyn.
Proof.
  intros Hperm H Hc Hi. apply extract_reaction_data_shape in H.
  destruct H as [(b & items' & rs & rid & _ & Hi' & Hl & _ & ->)
                |(e & rid & _ & ->)]; [|discriminate].
  rewrite Hi in Hi'. inv Hi'. simpl in Hc. unfold components_value in Hc. inv Hc.
  assert (Hinit : keys_shape core_order (map (fun g => normalize_key (fst g)) items')
                             (initial_roles core_order)).
  { assert (Hk : map fst (initial_roles core_order) = core_order).
    { unfold initial_roles. rewrite map_map. simpl. apply map_id. }
    split.
    - rewrite Hk. eapply Permutation_NoDup; [exact Hperm|].
      apply core_categories_nodup.
    - exists []. rewrite Hk, app_nil_r. split; [reflexivity|constructor]. }
  destruct (@inputs_loop_keys _ items' _ _ (incl_refl _) Hinit Hl)
    as (Hnd & dyn & Hk & Hdyn).
  rewrite map_map. simpl.
  change (map (fun x : string * list pyval => fst x) rs) with (map fst rs).
  split; [assumption|]. exists dyn. split; [assumption|].
  eapply Forall_impl; [|exact Hdyn]. intros k Hin.
  apply in_map_iff in Hin. destruct Hin as ([name inp] & <- & Hin).
  exists name. split; [|reflexivity].
  apply in_map_iff. now exists (name, inp).
Qed.

(** X5. A role lookup that fails does not cost the component: when the
    schema library cannot be imported, or the role tag or its name cannot
    be read, a component with identifier text is filed with the role
    "UNKNOWN". *)
Theorem failed_role_lookup_gives_unknown normalized_key component rs text_id :
  keys_present core_order rs ->
  extract_identifiers component = Ok text_id ->
  text_id <> EmptyString ->
  (importable = false \/
   (exists e, reaction_role component = Raise e) \/
   (exists role e, reaction_role component = Ok role /\
                   ReactionRole_Name role = Raise e)) ->
  component_step core_order normalized_key component rs
  = Ok (assoc_setdefault_update
          rs (filed_under core_order normalized_key) []
          (append_entry (comp_data text_id "UNKNOWN"))).
Proof.
  intros Hk Ht Hne Hrole.
  assert (Hr : role_name_of component = Ok "UNKNOWN").
  { unfold role_name_of.
    destruct Hrole as [->|[(e & ->)|(role & e & -> & He)]]; simpl;
      [reflexivity| |rewrite He]; destruct importable; reflexivity. }
  unfold component_step. rewrite Ht. simpl.
  destruct text_id; [congruence|]. simpl. rewrite Hr. simpl.
  now apply file_component_filed.
Qed.

(** X6. The extractor raises only when the reaction id of the record cannot
    be read, and then with that exception; any other exception of the walk
    ends in the failure-shaped record, with the text of the exception. *)
Theorem extractor_raises_only_without_reaction_id rxn dataset_id :
  (forall e,
      extract_reaction_data core_order rxn dataset_id = Raise e ->
      reaction_id_value rxn = Raise e) /\
  (forall rid b e,
      reaction_id_value rxn = Ok rid ->
      outcome_flag rxn = Ok b ->
      inputs_items rxn = Raise e ->
      extract_reaction_data core_order rxn dataset_id
      = Ok (failure_record dataset_id rid e)).
Proof.
  unfold extract_reaction_data. split.
  - intros e H.
    destruct (outcome_flag rxn) as [b|e1|c1]; simpl in H.
    + destruct (inputs_items rxn) as [items|e2|c2]; simpl in H.
      * destruct (inputs_loop core_order items (initial_roles core_order))
          as [rs|e3|c3]; simpl in H.
        -- destruct (reaction_id_value rxn); simpl in H; congruence.
        -- destruct (reaction_id_value rxn); simpl in H; congruence.
        -- discriminate.
      * destruct (reaction_id_value rxn); simpl in H; congruence.
      * discriminate.
    + destruct (reaction_id_value rxn); simpl in H; congruence.
    + discriminate.
  - intros rid b e Hr Hb Hi. rewrite Hb, Hi. simpl. rewrite Hr. reflexivity.
Qed.

End ExtractorMore.

(** ** More on the poller *)

Section PollerMore.
Variable service : list Request -> positive * get_outcome.
Variable http_error_msg : Response -> string.
Context {unicode : PyStr.Unicode}.

Local Abbreviation pollM := (poll service http_error_msg).
Local Abbreviation fetchM := (fetch_query_result service http_error_msg).

(** A turn of the loop that gets a "try again later" answer. *)
Lemma poll_turn_pending fuel task_id start_time w d resp :
  clock w - start_time < REACTION_TIMEOUT_S * 1000 ->
  service (poll_request task_id :: sent w) = (d, Responded resp) ->
  pending resp = true ->
  pollM (S fuel) task_id start_time w
  = pollM fuel task_id start_time (sleep 2000 (after_get w task_id d)).
Proof.
  intros Ht Hs Hp. rewrite (poll_turn service http_error_msg fuel task_id start_time w Ht Hs). cbv zeta.
  unfold pending in Hp.
  destruct (Z.eqb_spec (status_code resp) 200) as [E|_].
  - rewrite E in Hp. discriminate.
  - destruct (status_code resp =? 202); [reflexivity|].
    simpl in Hp. now rewrite Hp.
Qed.

(** What the loop sends and how long it takes, whatever the service does. *)
Lemma poll_sends_polls task_id start_time : forall fuel w w' r,
  pollM fuel task_id start_time w = Some (w', r) ->
  exists n,
    sent w' = repeat (poll_request task_id) n ++ sent w /\
    clock w <= clock w' /\
    (clock w - start_time < REACTION_TIMEOUT_S * 1000 -> (1 <= n)%nat).
Proof.
  induction fuel as [|fuel IH]; intros w w' r H; [discriminate|].
  destruct (Z.lt_ge_cases (clock w - start_time) (REACTION_TIMEOUT_S * 1000))
    as [Ht|Ht].
  - assert (Hone : forall d,
               exists n,
                 sent (after_get w task_id d)
                 = repeat (poll_request task_id) n ++ sent w /\
                 clock w <= clock (after_get w task_id d) /\
                 (clock w - start_time < REACTION_TIMEOUT_S * 1000 ->
                  (1 <= n)%nat)).
    { intros d. exists 1%nat. cbn [sent clock after_get repeat app].
      repeat split; lia. }
    assert (Hmore : forall w2,
               sent w2 = poll_request task_id :: sent w ->
               clock w <= clock w2 ->
               pollM fuel task_id start_time w2 = Some (w', r) ->
               exists n,
                 sent w' = repeat (poll_request task_id) n ++ sent w /\
                 clock w <= clock w' /\
                 (clock w - start_time < REACTION_TIMEOUT_S * 1000 ->
                  (1 <= n)%nat)).
    { intros w2 Hs2 Hc2 H2. destruct (IH _ _ _ H2) as (n & Hn & Hc & _).
      exists (S n). rewrite Hn, Hs2, repeat_shift. simpl.
      repeat split; lia. }
    destruct (service (poll_request task_id :: sent w)) as [d [resp|e]] eqn:Hs.
    + rewrite (poll_turn service http_error_msg fuel task_id start_time w Ht Hs) in H. cbv zeta in H.
      destruct (status_code resp =? 200); [inv H; apply Hone|].
      destruct (status_code resp =? 202);
        [refine (Hmore _ _ _ H); [reflexivity|cbn [clock sleep after_get]; lia]|].
      destruct ((status_code resp =? 400)
                && PyStr.contains "not ready" (PyStr.lower (text resp)));
        [refine (Hmore _ _ _ H); [reflexivity|cbn [clock sleep after_get]; lia]|].
      destruct (raise_for_status http_error_msg resp);
        [refine (Hmore _ _ _ H); [reflexivity|cbn [clock after_get]; lia]
        |inv H; apply Hone|inv H; apply Hone].
    + rewrite (poll_turn_failed service http_error_msg fuel task_id
                                start_time w Ht Hs) in H.
      inv H. apply Hone.
  - rewrite (poll_timed_out service http_error_msg fuel task_id
                            start_time w Ht) in H.
    inv H.
    exists 0%nat. cbn [repeat app]. repeat split; lia.
Qed.

(** X7. The poller always polls at least once, and all it sends are polls
    of its own task: the log grows by copies of that one request. *)
Theorem poller_sends_only_polls task_id w :
  exists n,
    (1 <= n)%nat /\
    sent (fst (fetchM task_id w)) = repeat (poll_request task_id) n ++ sent w /\
    clock w <= clock (fst (fetchM task_id w)).
Proof.
  pose proof (fetch_query_result_poll service http_error_msg task_id w) as Hp.
  destruct (fetchM task_id w) as [w' r].
  destruct (poll_sends_polls _ _ _ _ Hp) as (n & Hn & Hc & H1).
  exists n. simpl. repeat split; try assumption.
  apply H1. unfold REACTION_TIMEOUT_S. lia.
Qed.

(** While the service keeps answering "try again later", the loop can only
    end in the timeout. *)
Lemma poll_pending_forever task_id start_time :
  (forall log, exists d resp,
      service (poll_request task_id :: log) = (d, Responded resp) /\
      pending resp = true) ->
  forall fuel w w' r,
    pollM fuel task_id start_time w = Some (w', r) ->
    r = Raise (timeout_error task_id) /\
    REACTION_TIMEOUT_S * 1000 <= clock w' - start_time /\
    exists n,
      sent w' = repeat (poll_request task_id) n ++ sent w /\
      (n = 0%nat \/
       clock w - start_time + 2000 * (Z.of_nat n - 1) < REACTION_TIMEOUT_S * 1000).
Proof.
  intros Hall. induction fuel as [|fuel IH]; intros w w' r H; [discriminate|].
  destruct (Z.lt_ge_cases (clock w - start_time) (REACTION_TIMEOUT_S * 1000))
    as [Ht|Ht].
  - destruct (Hall (sent w)) as (d & resp & Hs & Hp).
    rewrite poll_turn_pending with (d := d) (resp := resp) in H by assumption.
    destruct (IH _ _ _ H) as (Hr & Hend & n & Hn & Hb).
    split; [assumption|]. split; [assumption|].
    exists (S n). split.
    + rewrite Hn. cbn [sent sleep after_get]. now rewrite repeat_shift.
    + right. cbn [clock sleep after_get] in Hb. destruct Hb as [->|Hb]; lia.
  - rewrite (poll_timed_out service http_error_msg fuel task_id
                            start_time w Ht) in H.
    inv H.
    split; [reflexivity|]. split; [assumption|].
    exists 0%nat. split; [reflexivity|now left].
Qed.

(** X8. If the service never reports the result ready (every poll is
    answered 202, or 400 with a "not ready" body), the poller raises the
    timeout naming the task, not before the ceiling of 90 s has passed, and
    after at least one and at most 45 polls. *)
Theorem poller_times_out task_id w :
  (forall log, exists d resp,
      service (poll_request task_id :: log) = (d, Responded resp) /\
      pending resp = true) ->
  snd (fetchM task_id w) = Raise (timeout_error task_id) /\
  REACTION_TIMEOUT_S * 1000 <= clock (fst (fetchM task_id w)) - clock w /\
  exists n,
    (1 <= n <= 45)%nat /\
    sent (fst (fetchM task_id w)) = repeat (poll_request task_id) n ++ sent w.
Proof.
  intros Hall.
  pose proof (fetch_query_result_poll service http_error_msg task_id w) as Hp.
  destruct (fetchM task_id w) as [w' r].
  destruct (poll_sends_polls _ _ _ _ Hp) as (n1 & Hn1 & _ & H1).
  destruct (@poll_pending_forever task_id (clock w) Hall _ _ _ _ Hp)
    as (Hr & Hend & n & Hn & Hb).
  simpl. split; [assumption|]. split; [assumption|].
  exists n. split; [|assumption].
  assert (n1 = n).
  { rewrite Hn1 in Hn. apply app_inv_tail in Hn.
    apply (f_equal (@List.length _)) in Hn. now rewrite !repeat_length in Hn. }
  subst n1. unfold REACTION_TIMEOUT_S in *. lia.
Qed.

(** A run of "try again later" answers followed by a 200. *)
Lemma poll_pending_run task_id start_time durations : forall fuel w d final,
  (List.length durations < fuel)%nat ->
  (forall k dk, nth_error durations k = Some dk ->
     exists r, service (repeat (poll_request task_id) (S k) ++ sent w)
               = (dk, Responded r) /\ pending r = true) ->
  service (repeat (poll_request task_id) (S (List.length durations)) ++ sent w)
  = (d, Responded final) ->
  status_code final = 200 ->
  clock w - start_time + polling_time durations < REACTION_TIMEOUT_S * 1000 ->
  pollM fuel task_id start_time w =
  Some (mkWorld (clock w + polling_time durations + Z.pos d)
                (repeat (poll_request task_id) (S (List.length durations))
                        ++ sent w),
        ready_result final).
Proof.
  induction durations as [|d0 ds IH]; intros fuel w d final Hf Hpend Hfin H200 Ht;
    (destruct fuel as [|fuel]; [simpl in Hf; lia|]).
  - simpl in Hfin. change (polling_time []) with 0 in *.
    assert (Ht0 : clock w - start_time < REACTION_TIMEOUT_S * 1000) by lia.
    rewrite (poll_turn service http_error_msg fuel task_id start_time w Ht0 Hfin). cbv zeta.
    rewrite H200. simpl. unfold after_get. now rewrite Z.add_0_r.
  - pose proof (polling_time_length ds) as Hlen.
    destruct (Hpend 0%nat d0 eq_refl) as (r & Hs & Hr). simpl in Hs.
    change (polling_time (d0 :: ds))
      with (Z.pos d0 + 2000 + polling_time ds) in *.
    assert (Ht0 : clock w - start_time < REACTION_TIMEOUT_S * 1000) by lia.
    rewrite poll_turn_pending with (d := d0) (resp := r) by assumption.
    rewrite (IH fuel (sleep 2000 (after_get w task_id d0)) d final).
    + cbn [clock sent sleep after_get List.length repeat app].
      rewrite repeat_shift. f_equal. f_equal. f_equal. lia.
    + simpl in Hf. lia.
    + intros k dk Hk. destruct (Hpend (S k) dk Hk) as (r' & Hs' & Hr').
      exists r'. split; [|assumption]. simpl sent.
      rewrite repeat_shift. exact Hs'.
    + simpl sent. rewrite repeat_shift. exact Hfin.
    + assumption.
    + cbn [clock sleep after_get]. lia.
Qed.

(** X9. A 400 answer whose body holds "not ready" in any letter case is
    waited out like a 202: after a run of such answers, with a pause of
    2 s after each, a 200 polled before the ceiling ends the polling with
    its body, at the time of the polls and the pauses, and with one request
    per answer. *)
Theorem poller_waits_out_pending task_id w durations d final :
  (forall k dk, nth_error durations k = Some dk ->
     exists r, service (repeat (poll_request task_id) (S k) ++ sent w)
               = (dk, Responded r) /\ pending r = true) ->
  service (repeat (poll_request task_id) (S (List.length durations)) ++ sent w)
  = (d, Responded final) ->
  status_code final = 200 ->
  polling_time durations < REACTION_TIMEOUT_S * 1000 ->
  fetchM task_id w
  = (mkWorld (clock w + polling_time durations + Z.pos d)
             (repeat (poll_request task_id) (S (List.length durations))
                     ++ sent w),
     ready_result final).
Proof.
  intros Hpend Hfin H200 Ht.
  pose proof (polling_time_length durations) as Hlen.
  pose proof (fetch_query_result_poll service http_error_msg task_id w) as Hp.
  rewrite (@poll_pending_run task_id (clock w) durations poll_fuel w d final)
    in Hp; try assumption.
  - now injection Hp as <-.
  - unfold poll_fuel, REACTION_TIMEOUT_S in *. lia.
  - lia.
Qed.

End PollerMore.

(** ** More on the submitter and the orchestrator *)

Section OrchestratorMore.
Variable service : list Request -> positive * get_outcome.
Variable http_error_msg : Response -> string.
Variable core_order : list string.
Context {schema : OrdSchema}.
Context {unicode : PyStr.Unicode}.

Local Abbreviation submitM := (submit_query service http_error_msg).
Local Abbreviation fetchO := (fetch_query_result service http_error_msg).
Local Abbreviation tryM := (dataset_try service http_error_msg core_order).
Local Abbreviation loopM := (datasets_loop service http_error_msg core_order).
Local Abbreviation scrapeM :=
  (scrape_ord_advanced service http_error_msg core_order).
Local Abbreviation mainM := (main service http_error_msg core_order).

(** X10. [submit_query] sends one request, with the dataset id and the
    limit; an answer with a status from 400 to 599 makes it raise the HTTP
    error, and a task id it returns neither starts nor ends with a double
    quote. *)
Theorem submit_query_one_request dataset_id limit w :
  sent (fst (submitM dataset_id limit w))
  = submit_request dataset_id limit :: sent w /\
  (forall d resp,
      service (submit_request dataset_id limit :: sent w) = (d, Responded resp) ->
      400 <= status_code resp < 600 ->
      snd (submitM dataset_id limit w)
      = Raise (Exn HTTPError (http_error_msg resp))) /\
  (forall task_id,
      snd (submitM dataset_id limit w) = Ok task_id ->
      head_is (Ascii.eqb PyStr.quote) task_id = false /\
      last_is (Ascii.eqb PyStr.quote) task_id = false).
Proof.
  unfold submit_query, iobind, session_get, lift, ret, submit_request.
  cbn [sent]. split; [|split].
  - destruct (service _) as [d [resp|e]];
      [destruct (raise_for_status http_error_msg resp)|]; reflexivity.
  - intros d resp Hs [Hlo Hhi]. rewrite Hs. unfold raise_for_status.
    destruct (Z.leb_spec 400 (status_code resp)); [|lia].
    destruct (Z.ltb_spec (status_code resp) 600); [|lia]. reflexivity.
  - intros task_id H.
    destruct (service _) as [d [resp|e]]; [|discriminate].
    destruct (raise_for_status http_error_msg resp); try discriminate.
    simpl in H. inv H. apply strip_by_ends.
Qed.

Lemma fetch_keeps_submits task_id w :
  filter is_submit (sent (fst (fetchO task_id w))) = filter is_submit (sent w).
Proof.
  apply (@fetch_preserves service http_error_msg unicode
           (fun w' => filter is_submit (sent w') = filter is_submit (sent w)));
    auto.
Qed.

(** X11. The limit a dataset is queried with is [per_dataset_limit] when
    that is positive and the reaction count the dataset reports otherwise;
    the query is the only [submit_query] request the dataset sends. *)
Theorem dataset_query_limit per_dataset_limit dataset_id num_rxns all_results w :
  filter is_submit
         (sent (fst (tryM per_dataset_limit dataset_id num_rxns all_results w)))
  = submit_request dataset_id
                   (if 0 <? per_dataset_limit then PInt per_dataset_limit
                    else num_rxns)
      :: filter is_submit (sent w).
Proof.
  unfold dataset_try. rewrite Z.gtb_ltb.
  set (limit := if 0 <? per_dataset_limit then PInt per_dataset_limit
                else num_rxns).
  destruct (submit_query_one_request dataset_id limit w) as [Hs _].
  unfold iobind at 1.
  destruct (submitM dataset_id limit w) as [w1 [task_id| |]]; simpl in Hs;
    try (simpl; rewrite Hs; reflexivity).
  pose proof (fetch_keeps_submits task_id w1) as Hf.
  unfold iobind at 1.
  assert (Hw1 : filter is_submit (sent w1)
                = submit_request dataset_id limit :: filter is_submit (sent w)).
  { rewrite Hs. reflexivity. }
  destruct (fetchO task_id w1) as [w2 [items| |]]; simpl in Hf;
    try (simpl; congruence).
  unfold iobind, lift.
  destruct (py_len items); simpl; try congruence.
  destruct (py_iter items); simpl; congruence.
Qed.

(** X12. A dataset whose query is refused (status 400 to 599) costs that
    one request: nothing is polled, nothing is appended by the dataset, and
    the loop goes on with the error record holding the text of the HTTP
    error. *)
Theorem refused_query_is_not_polled
        max_datasets per_dataset_limit ds rest all_results c w
        dataset_id num_rxns d resp :
  py_get ds "dataset_id" PNone = Ok dataset_id ->
  py_get ds "num_reactions" (PInt 0) = Ok num_rxns ->
  limit_reached max_datasets c = false ->
  service (submit_request dataset_id
                          (if 0 <? per_dataset_limit then PInt per_dataset_limit
                           else num_rxns) :: sent w)
  = (d, Responded resp) ->
  400 <= status_code resp < 600 ->
  let w1 := mkWorld (clock w + Z.pos d)
                    (submit_request dataset_id
                       (if 0 <? per_dataset_limit then PInt per_dataset_limit
                        else num_rxns) :: sent w) in
  tryM per_dataset_limit dataset_id num_rxns all_results w
  = (w1, (all_results, Raise (Exn HTTPError (http_error_msg resp)))) /\
  loopM max_datasets per_dataset_limit (ds :: rest) all_results c w
  = loopM max_datasets per_dataset_limit rest
          (all_results
             ++ [PDict [("dataset_id", dataset_id);
                        ("error", PStr (http_error_msg resp))]])
          c (sleep 1000 w1).
Proof.
  intros Hid Hn Hl Hs [Hlo Hhi] w1.
  assert (Ht : tryM per_dataset_limit dataset_id num_rxns all_results w
               = (w1, (all_results, Raise (Exn HTTPError (http_error_msg resp))))).
  { unfold dataset_try. rewrite Z.gtb_ltb.
    unfold iobind at 1. unfold submit_query, iobind, session_get, lift.
    unfold submit_request in Hs. rewrite Hs. unfold raise_for_status.
    destruct (Z.leb_spec 400 (status_code resp)); [|lia].
    destruct (Z.ltb_spec (status_code resp) 600); [|lia]. reflexivity. }
  split; [exact Ht|].
  rewrite datasets_loop_cons
    with (dataset_id := dataset_id) (num_rxns := num_rxns) by assumption.
  rewrite Ht. reflexivity.
Qed.

Lemma filter_loop_dicts ids ds :
  Forall (fun d => is_dict d = true) ds ->
  filter_loop ds ids
  = Ok (filter (fun d => in_ids (dataset_id_of d) ids) ds).
Proof.
  induction 1 as [|d ds Hd _ IH]; simpl; [reflexivity|].
  destruct d; try discriminate. unfold dataset_id_of. simpl.
  rewrite IH. reflexivity.
Qed.

(** X13. With an allow-list, the datasets processed are those of the
    fetched list, in its order, whose id is a string of the allow-list; an
    id of the allow-list that no dataset has selects nothing.  Without an
    allow-list, or with an empty one, the list is taken as it is.  An
    element of the list that is not an object makes the selection raise. *)
Theorem allow_list_selects_by_id :
  (forall ds i ids,
      Forall (fun d => is_dict d = true) ds ->
      select_datasets (PList ds) (Some (i :: ids))
      = Ok (PList (filter (fun d => in_ids (dataset_id_of d) (i :: ids)) ds))) /\
  (forall datasets,
      select_datasets datasets None = Ok datasets /\
      select_datasets datasets (Some []) = Ok datasets) /\
  (forall pre v post i ids,
      Forall (fun d => is_dict d = true) pre ->
      is_dict v = false ->
      select_datasets (PList (pre ++ v :: post)) (Some (i :: ids))
      = attribute_error v "get").
Proof.
  split; [|split].
  - intros ds i ids Hd. unfold select_datasets. simpl.
    now rewrite (filter_loop_dicts (i :: ids) Hd).
  - intros datasets. split; reflexivity.
  - intros pre v post i ids Hpre Hv. unfold select_datasets.
    cbn [py_iter bind].
    assert (L : filter_loop (pre ++ v :: post) (i :: ids)
                = attribute_error v "get").
    { induction Hpre as [|d pre Hd _ IH].
      - cbn [app filter_loop]. destruct v; try discriminate; reflexivity.
      - cbn [app filter_loop]. destruct d; try discriminate.
        cbn [py_get bind]. now rewrite IH. }
    rewrite L. reflexivity.
Qed.

(** X14. An envelope without a payload (no "proto" field, or a falsy one)
    is passed over: the result is the one obtained without it. *)
Theorem envelope_without_payload_skipped d pre post dataset_id all_results :
  (assoc_get d "proto" = None \/
   exists v, assoc_get d "proto" = Some v /\ truthy v = false) ->
  items_loop core_order (pre ++ PDict d :: post) dataset_id all_results
  = items_loop core_order (pre ++ post) dataset_id all_results.
Proof.
  intros H.
  assert (Hstep : item_step core_order (PDict d) dataset_id = Ok None).
  { unfold item_step. cbn [py_get bind].
    destruct H as [->|(v & -> & Hv)]; [reflexivity|]. now rewrite Hv. }
  rewrite !items_loop_app.
  destruct (items_loop core_order pre dataset_id all_results) as [a [[]| |]];
    try reflexivity.
  cbn [items_loop]. now rewrite Hstep.
Qed.

(** X15. When no envelope of a dataset raises, the records of the dataset
    are appended in the order of the envelopes, after what the output list
    held. *)
Theorem records_in_envelope_order items outs dataset_id all_results :
  Forall2 (fun item o => item_step core_order item dataset_id = Ok o) items outs ->
  items_loop core_order items dataset_id all_results
  = (all_results ++ somes outs, Ok tt).
Proof.
  intros H. revert all_results.
  induction H as [|item o items outs Ho _ IH]; intros all_results; simpl.
  - now rewrite app_nil_r.
  - rewrite Ho. destruct o as [data|]; rewrite IH; [|reflexivity].
    now rewrite <- app_assoc.
Qed.

(** X16. With the schema library missing, the first envelope with a payload
    ends the run with exit code 1: the exit is not turned into an error
    record, no pause follows and no further dataset is taken up; [main]
    passes the exit on. *)
Theorem missing_schema_library_ends_run :
  importable = false ->
  (forall pre item post v dataset_id all_results,
      Forall (fun it => item_step core_order it dataset_id = Ok None) pre ->
      py_get item "proto" PNone = Ok v ->
      truthy v = true ->
      items_loop core_order (pre ++ item :: post) dataset_id all_results
      = (all_results, Abort 1)) /\
  (forall max_datasets per_dataset_limit ds rest all_results c w
          dataset_id num_rxns w1 all_results1 code,
      py_get ds "dataset_id" PNone = Ok dataset_id ->
      py_get ds "num_reactions" (PInt 0) = Ok num_rxns ->
      limit_reached max_datasets c = false ->
      tryM per_dataset_limit dataset_id num_rxns all_results w
      = (w1, (all_results1, Abort code)) ->
      loopM max_datasets per_dataset_limit (ds :: rest) all_results c w
      = (w1, Abort code)) /\
  (forall args w w1 code,
      scrapeM (main_max_datasets args) (arg_per_dataset_limit args)
              (main_ds_ids args) w = (w1, Abort code) ->
      mainM args w = (w1, Abort code)).
Proof.
  intros Himp. split; [|split].
  - intros pre item post v dataset_id all_results Hpre Hp Hv.
    assert (Hstep : item_step core_order item dataset_id = Abort 1).
    { unfold item_step. rewrite Hp. cbn [bind]. rewrite Hv. cbn [negb].
      unfold decode_reaction_proto. rewrite Himp. reflexivity. }
    rewrite items_loop_app.
    assert (L : items_loop core_order pre dataset_id all_results
                = (all_results, Ok tt)).
    { clear - Hpre. revert all_results.
      induction Hpre as [|it pre Hi _ IH]; intros all_results; simpl;
        [reflexivity|]. rewrite Hi. apply IH. }
    rewrite L. cbn [items_loop]. now rewrite Hstep.
  - intros max_datasets per_dataset_limit ds rest all_results c w
           dataset_id num_rxns w1 all_results1 code Hid Hn Hl Ht.
    rewrite datasets_loop_cons
      with (dataset_id := dataset_id) (num_rxns := num_rxns) by assumption.
    now rewrite Ht.
  - intros args w w1 code H. unfold main. now rewrite H.
Qed.

(** X17. A [max_datasets] of zero or less handed to the orchestrator stops
    the loop before the first dataset: no query is submitted, nothing is
    waited for and the output is empty.  [main] hands 0 over as it is when
    an allow-list is given. *)
Theorem nonpositive_max_datasets_scrapes_nothing
        m per_dataset_limit dss w w' out c' :
  m <= 0 ->
  loopM (Some m) per_dataset_limit dss [] 0 w = (w', Ok (out, c')) ->
  (w' = w /\ out = [] /\ c' = 0) /\
  (forall args,
      arg_max_datasets args = 0 ->
      ids_given (main_ds_ids args) = true ->
      main_max_datasets args = Some 0).
Proof.
  intros Hm H. split.
  - destruct dss as [|ds rest]; [now inv H|].
    cbn [datasets_loop] in H. unfold iobind, lift in H.
    destruct (py_get ds "dataset_id" PNone); try discriminate.
    destruct (py_get ds "num_reactions" (PInt 0)); try discriminate.
    unfold limit_reached in H.
    destruct (Z.geb_spec 0 m) as [_|Hlt]; [|lia]. now inv H.
  - intros args H0 Hids. unfold main_max_datasets. rewrite H0, Hids. reflexivity.
Qed.

(** X18. The ids [main] reads off a comma-separated argument are non-empty
    and have no white space at either end, and each is a field of the
    argument without the white space at the ends of the field. *)
Theorem parsed_ids_are_stripped args ids :
  main_ds_ids args = Some ids ->
  exists arg,
    arg_dataset_ids args = Some arg /\
    Forall (fun s => s <> EmptyString /\
                     starts_white s = false /\ ends_white s = false /\
                     exists pre post,
                       white pre /\ white post /\
                       In (pre ++ s ++ post)%string (PyStr.split_on "," arg))
           ids.
Proof.
  unfold main_ds_ids. intros H.
  destruct (arg_dataset_ids args) as [arg|]; [|discriminate].
  destruct (PyStr.nonempty arg); [|discriminate]. inv H.
  exists arg. split; [reflexivity|].
  apply Forall_forall. intros x Hx. apply filter_In in Hx.
  destruct Hx as [Hin Hne]. split.
  - intros ->. discriminate.
  - apply in_map_iff in Hin. destruct Hin as (y & <- & Hy).
    destruct (strip_spec y) as (pre & post & E & Hpre & Hpost & Hs & He).
    split; [assumption|]. split; [assumption|].
    exists pre, post. split; [assumption|]. split; [assumption|].
    now rewrite <- E.
Qed.

(** X19. The dataset list is fetched outside every handler: when the
    request fails or the body does not parse, nothing else is sent, the
    exception leaves the orchestrator and [main] exits with code 1.  The
    status of the answer is not looked at: an empty list yields an empty
    output. *)
Theorem dataset_list_failure_is_fatal max_datasets per_dataset_limit dataset_ids w :
  (forall d e,
      service (datasets_request :: sent w) = (d, Failed e) ->
      scrapeM max_datasets per_dataset_limit dataset_ids w
      = (mkWorld (clock w + Z.pos d) (datasets_request :: sent w), Raise e)) /\
  (forall d resp e,
      service (datasets_request :: sent w) = (d, Responded resp) ->
      json resp = Raise e ->
      scrapeM max_datasets per_dataset_limit dataset_ids w
      = (mkWorld (clock w + Z.pos d) (datasets_request :: sent w), Raise e)) /\
  (forall d resp,
      service (datasets_request :: sent w) = (d, Responded resp) ->
      json resp = Ok (PList []) ->
      scrapeM max_datasets per_dataset_limit dataset_ids w
      = (mkWorld (clock w + Z.pos d) (datasets_request :: sent w), Ok [])) /\
  (forall args w1 e,
      scrapeM (main_max_datasets args) (arg_per_dataset_limit args)
              (main_ds_ids args) w = (w1, Raise e) ->
      mainM args w = (w1, Abort 1)).
Proof.
  unfold scrape_ord_advanced, datasets_request.
  split; [|split; [|split]].
  - intros d e Hs. unfold iobind at 1. unfold session_get. now rewrite Hs.
  - intros d resp e Hs Hj. unfold iobind at 1. unfold session_get. rewrite Hs.
    unfold iobind at 1. unfold lift. now rewrite Hj.
  - intros d resp Hs Hj. unfold iobind at 1. unfold session_get. rewrite Hs.
    unfold iobind, lift. rewrite Hj.
    destruct dataset_ids as [[|i ids]|]; reflexivity.
  - intros args w1 e H. unfold main, scrape_ord_advanced. now rewrite H.
Qed.

Lemma dataset_try_clock per_dataset_limit dataset_id num_rxns all_results w :
  clock w <= clock (fst (tryM per_dataset_limit dataset_id num_rxns all_results w)).
Proof.
  unfold dataset_try.
  set (limit := if per_dataset_limit >? 0 then PInt per_dataset_limit
                else num_rxns).
  assert (Hs : clock w <= clock (fst (submitM dataset_id limit w))).
  { unfold submit_query, iobind, session_get, lift, ret.
    destruct (service _) as [d [resp|e]];
      [destruct (raise_for_status http_error_msg resp)|]; simpl; lia. }
  unfold iobind at 1.
  destruct (submitM dataset_id limit w) as [w1 [task_id| |]]; simpl in Hs;
    try exact Hs.
  destruct (poller_sends_only_polls service http_error_msg task_id w1)
    as (n & _ & _ & Hc).
  unfold iobind at 1.
  destruct (fetchO task_id w1) as [w2 [items| |]]; simpl in Hc;
    try (simpl; lia).
  unfold iobind, lift.
  destruct (py_len items); simpl; try lia.
  destruct (py_iter items); simpl; lia.
Qed.

(** X20. Every dataset taken up is followed by the pause of one second: a
    run that returns has taken at least a second for each query it
    submitted. *)
Theorem run_takes_a_second_per_dataset
        max_datasets per_dataset_limit : forall dss all_results c w w' out c',
  loopM max_datasets per_dataset_limit dss all_results c w = (w', Ok (out, c')) ->
  1000 * (Z.of_nat (List.length (submitted w'))
          - Z.of_nat (List.length (submitted w)))
  <= clock w' - clock w.
Proof.
  induction dss as [|ds rest IH]; intros all_results c w w' out c' H.
  - inv H. lia.
  - cbn [datasets_loop] in H. unfold iobind, lift in H.
    destruct (py_get ds "dataset_id" PNone) as [dataset_id| |]; try discriminate.
    destruct (py_get ds "num_reactions" (PInt 0)) as [num_rxns| |];
      try discriminate.
    destruct (limit_reached max_datasets c); [inv H; lia|].
    pose proof (dataset_try_submitted service http_error_msg core_order
                  per_dataset_limit dataset_id num_rxns all_results w) as Hsub.
    pose proof (dataset_try_clock per_dataset_limit dataset_id num_rxns
                                  all_results w) as Hclk.
    destruct (tryM per_dataset_limit dataset_id num_rxns all_results w)
      as [w1 [all_results1 r]].
    simpl in Hsub, Hclk.
    assert (Hlen : Z.of_nat (List.length (submitted (sleep 1000 w1)))
                   = Z.of_nat (List.length (submitted w)) + 1).
    { rewrite submitted_sleep, Hsub, length_app. simpl. lia. }
    destruct r as [[]|e|code]; [| |discriminate];
      specialize (IH _ _ _ _ _ _ H); cbn [clock sleep] in IH; lia.
Qed.

Lemma map_record_dataset_id dataset_id l :
  Forall (fun r => record_dataset_id r = dataset_id) l ->
  map record_dataset_id l = repeat dataset_id (List.length l).
Proof.
  induction 1 as [|r l Hr _ IH]; simpl; [reflexivity|]. now rewrite Hr, IH.
Qed.

(** X21. The output list is in dataset order, then record order: after
    what it held, it holds one block of records per dataset taken up, in
    list order, every record of a block carrying the id of its dataset. *)
Theorem output_grouped_by_dataset
        max_datasets per_dataset_limit : forall dss all_results c w w' out c',
  loopM max_datasets per_dataset_limit dss all_results c w = (w', Ok (out, c')) ->
  exists k counts more,
    out = all_results ++ more /\
    (k <= List.length dss)%nat /\
    List.length counts = k /\
    submitted w' = submitted w ++ map dataset_id_of (firstn k dss) /\
    map record_dataset_id more = grouped_ids (firstn k dss) counts.
Proof.
  induction dss as [|ds rest IH]; intros all_results c w w' out c' H.
  - inv H. exists 0%nat, [], []. simpl. rewrite !app_nil_r.
    repeat split; try reflexivity; lia.
  - cbn [datasets_loop] in H. unfold iobind, lift in H.
    destruct (py_get ds "dataset_id" PNone) as [dataset_id| |] eqn:Hid;
      try discriminate.
    destruct (py_get ds "num_reactions" (PInt 0)) as [num_rxns| |];
      try discriminate.
    assert (Hof : dataset_id_of ds = dataset_id).
    { unfold dataset_id_of. now rewrite Hid. }
    destruct (limit_reached max_datasets c).
    + inv H. exists 0%nat, [], []. simpl. rewrite !app_nil_r.
      repeat split; try reflexivity; lia.
    + pose proof (dataset_try_submitted service http_error_msg core_order
                    per_dataset_limit dataset_id num_rxns all_results w) as Hsub.
      destruct (tryM per_dataset_limit dataset_id num_rxns all_results w)
        as [w1 [all_results1 r]] eqn:Ht.
      simpl in Hsub.
      destruct (dataset_try_extends _ _ _ _ _ _ _ _ Ht) as (recs & -> & Hrecs).
      assert (Hids : Forall (fun r0 => record_dataset_id r0 = dataset_id) recs).
      { eapply Forall_impl; [|exact Hrecs]. intros r0 Hr0.
        unfold record_dataset_id.
        now destruct (extractor_record_has_ids Hr0) as [-> _]. }
      destruct r as [[]|e|code]; [| |discriminate].
      * destruct (IH _ _ _ _ _ _ H)
          as (k & counts & more & -> & Hk & Hlen & Hs & Hmap).
        exists (S k), (List.length recs :: counts), (recs ++ more).
        rewrite submitted_sleep, Hsub in Hs.
        cbn [List.length firstn map]. unfold grouped_ids in *.
        cbn [combine map List.concat fst snd].
        repeat split; try lia.
        -- now rewrite app_assoc.
        -- rewrite Hs, Hof, <- app_assoc. reflexivity.
        -- rewrite map_app, Hmap, Hof. f_equal.
           now apply map_record_dataset_id.
      * destruct (IH _ _ _ _ _ _ H)
          as (k & counts & more & -> & Hk & Hlen & Hs & Hmap).
        exists (S k), (S (List.length recs) :: counts),
          (recs ++ error_record dataset_id e :: more).
        rewrite submitted_sleep, Hsub in Hs.
        cbn [List.length firstn map]. unfold grouped_ids in *.
        cbn [combine map List.concat fst snd].
        repeat split; try lia.
        -- now rewrite <- !app_assoc.
        -- rewrite Hs, Hof, <- app_assoc. reflexivity.
        -- rewrite map_app. cbn [map]. rewrite Hmap, Hof.
           rewrite (map_record_dataset_id Hids).
           change (record_dataset_id (error_record dataset_id e))
             with dataset_id.
           replace (S (List.length recs)) with (List.length recs + 1)%nat by lia.
           rewrite repeat_app, <- app_assoc. reflexivity.
Qed.

End OrchestratorMore.

(** ** Runs on the concrete services *)

Import Demo.

Lemma service_down_run :
  datasets_loop Demo.service_down Demo.msg CORE_CATEGORIES (Some 1) 5
                [Demo.ds_a; Demo.ds_b] [] 0 Demo.w0
  = (Demo.down_world, Ok (Demo.down_out, 0)).
Proof. vm_compute. reflexivity. Qed.

Lemma service_down_submitted :
  submitted Demo.down_world = [PStr "ds-a"; PStr "ds-b"].
Proof. vm_compute. reflexivity. Qed.

(** A dataset-id argument of white space only names no dataset: the
    allow-list is empty and a [max_datasets] of 0 still means all. *)
Lemma blank_ids_name_no_dataset :
  main_ds_ids Demo.blank_ids_args = Some [] /\
  main_max_datasets Demo.blank_ids_args = None.
Proof. split; reflexivity. Qed.

(** With the query endpoint down and [max_datasets = 1], both datasets are
    taken up. *)
Lemma failed_datasets_exceed_max_datasets :
  ~ attempts_within_max_datasets Demo.service_down Demo.msg
      CORE_CATEGORIES Demo.schema Demo.unicode.
Proof.
  intros H.
  specialize (H 1 5 [Demo.ds_a; Demo.ds_b] Demo.w0 eq_refl).
  rewrite service_down_run in H. cbn [fst] in H.
  rewrite service_down_submitted in H. simpl in H. lia.
Qed.

(** The record appended for a failed dataset has no reaction id. *)
Lemma dataset_error_record_lacks_reaction_id :
  ~ every_record_has_both_ids Demo.service_down Demo.msg
      CORE_CATEGORIES Demo.schema Demo.unicode.
Proof.
  intros H. specialize (H _ _ _ _ _ _ _ service_down_run).
  inversion H as [|r rs [_ Hr] _]. apply Hr. reflexivity.
Qed.

(** C10. The count compared with [max_datasets] goes up by one when the
    processing of a dataset completes and stays as it is when it ends in the
    error record: at the end it is the number of datasets taken up less the
    number of error records, and with failures more than [max_datasets]
    datasets are taken up. *)
Theorem counter_counts_completed_datasets :
  (forall service http_error_msg core_order (schema : OrdSchema)
          (unicode : PyStr.Unicode) max_datasets per_dataset_limit
          ds rest all_results c w dataset_id num_rxns w1 all_results1,
      py_get ds "dataset_id" PNone = Ok dataset_id ->
      py_get ds "num_reactions" (PInt 0) = Ok num_rxns ->
      limit_reached max_datasets c = false ->
      (dataset_try service http_error_msg core_order per_dataset_limit
                   dataset_id num_rxns all_results w
       = (w1, (all_results1, Ok tt)) ->
       datasets_loop service http_error_msg core_order max_datasets
                     per_dataset_limit (ds :: rest) all_results c w
       = datasets_loop service http_error_msg core_order max_datasets
                       per_dataset_limit rest all_results1 (c + 1)
                       (sleep 1000 w1)) /\
      (forall e,
          dataset_try service http_error_msg core_order per_dataset_limit
                      dataset_id num_rxns all_results w
          = (w1, (all_results1, Raise e)) ->
          datasets_loop service http_error_msg core_order max_datasets
                        per_dataset_limit (ds :: rest) all_results c w
          = datasets_loop service http_error_msg core_order max_datasets
                          per_dataset_limit rest
                          (all_results1 ++ [error_record dataset_id e]) c
                          (sleep 1000 w1))) /\
  (forall service http_error_msg core_order (schema : OrdSchema)
          (unicode : PyStr.Unicode) max_datasets per_dataset_limit dss w w' out c',
      datasets_loop service http_error_msg core_order max_datasets
                    per_dataset_limit dss [] 0 w
      = (w', Ok (out, c')) ->
      exists k,
        submitted w' = submitted w ++ map dataset_id_of (firstn k dss) /\
        c' = Z.of_nat k - Z.of_nat (dataset_errors out)) /\
  (exists service http_error_msg core_order (schema : OrdSchema)
          (unicode : PyStr.Unicode) m per_dataset_limit dss w,
      0 < m /\
      m < Z.of_nat (List.length
                      (submitted
                         (fst (datasets_loop service http_error_msg core_order
                                             (Some m) per_dataset_limit
                                             dss [] 0 w))))
          - Z.of_nat (List.length (submitted w))).
Proof.
  split; [|split].
  - intros service http_error_msg core_order schema unicode max_datasets
           per_dataset_limit ds rest all_results c w dataset_id num_rxns
           w1 all_results1 Hid Hn Hl.
    split; [intros Ht|intros e Ht];
      rewrite datasets_loop_cons
        with (dataset_id := dataset_id) (num_rxns := num_rxns) by assumption;
      rewrite Ht; reflexivity.
  - intros service http_error_msg core_order schema unicode max_datasets
           per_dataset_limit dss w w' out c' H.
    destruct (datasets_loop_run _ _ _ _ _ _ _ _ _ H)
      as (k & more & _ & Hs & -> & Hcount & _).
    exists k. split; [assumption|]. simpl. lia.
  - exists Demo.service_down, Demo.msg, CORE_CATEGORIES, Demo.schema,
      Demo.unicode, 1, 5, [Demo.ds_a; Demo.ds_b], Demo.w0.
    rewrite service_down_run. cbn [fst].
    rewrite service_down_submitted. simpl. lia.
Qed.

(** ** The theorems at concrete inputs *)

Lemma success_flag_first_outcome_witness :
  extract_reaction_data CORE_CATEGORIES ligand_rxn (PStr "ds-a") = Ok ligand_record /\
  record_get ligand_record "error" = None /\
  exists b,
    record_get ligand_record "success" = Some (PBool b) /\
    (b = true <->
     exists o os p ps,
       outcomes ligand_rxn = Ok (o :: os) /\ reaction_product o = Ok (p :: ps)) /\
    (outcomes ligand_rxn = Ok [] -> b = false).
Proof.
  split; [reflexivity|]. split; [reflexivity|].
  apply (success_flag_first_outcome CORE_CATEGORIES (schema := Demo.schema)
                                    ligand_rxn (PStr "ds-a"));
    reflexivity.
Defined.

Lemma components_hold_core_keys_witness :
  Permutation CORE_CATEGORIES CORE_CATEGORIES /\
  extract_reaction_data CORE_CATEGORIES ligand_rxn (PStr "ds-a") = Ok ligand_record /\
  record_get ligand_record "error" = None /\
  exists comps,
    record_get ligand_record "components" = Some (PDict comps) /\
    forall k, In k CORE_CATEGORIES -> exists l, assoc_get comps k = Some (PList l).
Proof.
  split; [apply Permutation_refl|]. split; [reflexivity|]. split; [reflexivity|].
  apply (components_hold_core_keys (schema := Demo.schema)
                                   (Permutation_refl CORE_CATEGORIES)
                                   ligand_rxn (PStr "ds-a"));
    reflexivity.
Defined.

Lemma component_without_text_dropped_witness :
  (exists ids, identifiers blank = Ok ids /\
               forall i, In i ids -> value i = Ok EmptyString) /\
  component_step CORE_CATEGORIES "pd ligand 1" blank empty_roles = Ok empty_roles /\
  components_loop CORE_CATEGORIES "pd ligand 1" [xphos; blank] empty_roles
  = components_loop CORE_CATEGORIES "pd ligand 1" [xphos] empty_roles.
Proof.
  assert (H : exists ids, identifiers blank = Ok ids /\
                          forall i, In i ids -> value i = Ok EmptyString).
  { exists [""; ""]. split; [reflexivity|].
    intros i [<-|[<-|[]]]; reflexivity. }
  split; [exact H|].
  destruct (component_without_text_dropped
              CORE_CATEGORIES (schema := Demo.schema) "pd ligand 1" blank H)
    as (_ & Hstep & Hloop & _).
  split; [apply Hstep|]. exact (Hloop [xphos] [] empty_roles).
Defined.

Lemma extractor_files_by_group_name_witness :
  Permutation CORE_CATEGORIES CORE_CATEGORIES /\
  extract_reaction_data CORE_CATEGORIES padded_rxn (PStr "ds-a")
  = Ok padded_record /\
  record_get padded_record "components" = Some (PDict padded_comps) /\
  inputs_items padded_rxn = Ok padded_items /\
  category_binding CORE_CATEGORIES padded_items "ligand"
  = Some (PList [comp_data "XPhos; CC(C)c1" "CATALYST";
                 comp_data "PPh3" "CATALYST"]) /\
  category_binding CORE_CATEGORIES padded_items "solvent"
  = Some (PList [comp_data "NCC" "UNKNOWN"]) /\
  category_binding CORE_CATEGORIES padded_items "amine" = Some (PList []) /\
  category_binding CORE_CATEGORIES padded_items "cs carbonate"
  = Some (PList [comp_data "O=C([O-])[O-]" "REACTANT"]) /\
  category_binding CORE_CATEGORIES padded_items "pd ligand 1" = None /\
  category_of CORE_CATEGORIES (normalize_key "Pd_ligand_1") "ligand".
Proof.
  assert (H : extract_reaction_data CORE_CATEGORIES padded_rxn (PStr "ds-a")
              = Ok padded_record) by reflexivity.
  assert (Hc : record_get padded_record "components"
               = Some (PDict padded_comps)) by reflexivity.
  assert (Hi : inputs_items padded_rxn = Ok padded_items) by reflexivity.
  destruct (extractor_files_by_group_name
              (schema := Demo.schema) (unicode := Demo.unicode)
              (Permutation_refl CORE_CATEGORIES) padded_rxn (PStr "ds-a")
              H Hc Hi)
    as (_ & _ & Hb & _ & Hpd & _).
  split; [apply Permutation_refl|].
  split; [exact H|]. split; [exact Hc|]. split; [exact Hi|].
  rewrite <- !Hb.
  repeat (split; [reflexivity|]).
  exact (proj1 (proj2 (Hpd _ (or_introl eq_refl) eq_refl))).
Defined.

Lemma poller_ready_on_200_witness :
  polling_time [25; 25]%positive < REACTION_TIMEOUT_S * 1000 /\
  snd (fetch_query_result service_202 msg "t" w0) = Ok (PList []).
Proof.
  split; [reflexivity|].
  assert (H202 : forall k dk,
             nth_error [25; 25]%positive k = Some dk ->
             exists r, service_202 (repeat (poll_request "t") (S k) ++ sent w0)
                       = (dk, Responded r) /\ status_code r = 202).
  { intros k dk H. destruct k as [|[|k]]; simpl in H.
    - injection H as <-. eexists. split; reflexivity.
    - injection H as <-. eexists. split; reflexivity.
    - destruct k; discriminate. }
  apply (proj1 (proj2 (poller_ready_on_200
                         service_202 msg "t" w0 [25; 25]%positive
                         (d := 25%positive)
                         (final := mkResponse 200 "[]" (Ok (PList [])))
                         H202 eq_refl eq_refl eq_refl))).
  reflexivity.
Defined.

Lemma poller_fails_on_error_status_witness :
  clock w0 - clock w0 < REACTION_TIMEOUT_S * 1000 /\
  fetch_query_result service_down msg "t" w0
  = (after_get w0 "t" 25%positive, Raise (Exn HTTPError "500 Error")).
Proof.
  split; [reflexivity|].
  assert (Hrange : 400 <= 500 < 600) by lia.
  assert (Hnr : ~ (500 = 400 /\
                   PyStr.contains "not ready"
                                  (PyStr.lower "Internal Server Error") = true)).
  { intros [E _]. discriminate. }
  exact (proj2 (poller_fails_on_error_status
                  service_down msg 0 "t" (clock w0) w0
                  (d := 25%positive)
                  (resp := mkResponse 500 "Internal Server Error" no_json)
                  eq_refl eq_refl Hrange Hnr) eq_refl).
Defined.

Lemma datasets_in_order_until_limit_witness :
  datasets_loop service_ok msg CORE_CATEGORIES (Some 1) 5 [ds_a; ds_b] [] 0 w0
  = (ok_world, Ok (ok_out, 1)) /\
  exists k,
    (k <= 2)%nat /\
    submitted ok_world = submitted w0 ++ map dataset_id_of (firstn k [ds_a; ds_b]) /\
    Z.of_nat k = 1 + Z.of_nat (dataset_errors ok_out) /\
    (forall m, Some 1 = Some m -> 0 <= m ->
               1 <= m /\ ((k < 2)%nat -> 1 = m)) /\
    (Some 1 = None -> k = 2%nat).
Proof.
  assert (H : datasets_loop service_ok msg CORE_CATEGORIES (Some 1) 5
                            [ds_a; ds_b] [] 0 w0
              = (ok_world, Ok (ok_out, 1))) by (vm_compute; reflexivity).
  split; [exact H|].
  exact (proj1 (datasets_in_order_until_limit
                  service_ok msg CORE_CATEGORIES (schema := Demo.schema)
                  (Some 1) 5 [ds_a; ds_b] w0 H)).
Defined.

Lemma output_records_carry_ids_witness :
  scrape_ord_advanced service_ok msg CORE_CATEGORIES (Some 2) 0 (Some ["ds-b"]) w0
  = (scrape_world, Ok scrape_out) /\
  Forall (fun r => exists dataset_id,
              In dataset_id (submitted scrape_world) /\
              record_get r "dataset_id" = Some dataset_id /\
              output_record CORE_CATEGORIES dataset_id r) scrape_out.
Proof.
  assert (H : scrape_ord_advanced service_ok msg CORE_CATEGORIES (Some 2) 0
                                  (Some ["ds-b"]) w0
              = (scrape_world, Ok scrape_out)) by (vm_compute; reflexivity).
  split; [exact H|].
  exact (proj2 (proj2 (output_records_carry_ids
                         service_ok msg CORE_CATEGORIES (schema := Demo.schema)
                         (Some 2) 0))
               (Some ["ds-b"]) w0 scrape_world scrape_out H).
Defined.


Lemma counter_counts_completed_datasets_witness :
  exists k,
    submitted down_world = submitted w0 ++ map dataset_id_of (firstn k [ds_a; ds_b]) /\
    0 = Z.of_nat k - Z.of_nat (dataset_errors down_out).
Proof.
  exact (proj1 (proj2 counter_counts_completed_datasets)
               service_down msg CORE_CATEGORIES schema unicode (Some 1) 5
               [ds_a; ds_b] w0 down_world down_out 0 service_down_run).
Defined.

(** ** The further theorems at concrete inputs *)

Lemma normalize_key_alphabet_witness :
  PyStr.is_ascii " Pd_Ligand_1 " = true /\
  normalize_key " Pd_Ligand_1 " = "pd ligand 1" /\
  string_forall (fun c => negb (Ascii.eqb c "_") && negb (is_upper c))
                (normalize_key " Pd_Ligand_1 ") = true.
Proof.
  split; [reflexivity|].
  destruct (proj2 (normalize_key_alphabet (unicode := Demo.unicode)
                                          " Pd_Ligand_1 ") eq_refl)
    as [E F].
  split; [rewrite E; reflexivity|exact F].
Defined.

Lemma identifier_text_joins_values_witness :
  identifiers three_ids = Ok ["XPhos"; ""; "CC(C)c1"] /\
  extract_identifiers three_ids = Ok "XPhos; CC(C)c1".
Proof.
  split; [reflexivity|].
  assert (Hv : Forall2 (fun (i : @Identifier Demo.schema) v => value i = Ok v)
                       ["XPhos"; ""; "CC(C)c1"] ["XPhos"; ""; "CC(C)c1"]).
  { repeat constructor. }
  exact (proj1 (identifier_text_joins_values
                  (schema := Demo.schema) three_ids
                  (eq_refl : @identifiers Demo.schema three_ids = Ok _))
               _ Hv).
Defined.

Lemma entries_count_kept_components_witness :
  record_get ligand_record "components" = Some (PDict ligand_comps) /\
  components_total ligand_comps
  = list_sum (map (@kept_in_group Demo.schema) ligand_items).
Proof.
  split; [reflexivity|].
  apply (entries_count_kept_components
           CORE_CATEGORIES (schema := Demo.schema) ligand_rxn (PStr "ds-a")
           (r := ligand_record));
    reflexivity.
Defined.

Lemma component_keys_core_then_groups_witness :
  NoDup (map fst ligand_comps) /\
  exists dyn,
    map fst ligand_comps = CORE_CATEGORIES ++ dyn /\
    Forall (fun k => exists name,
                In name (map fst ligand_items) /\ k = normalize_key name) dyn.
Proof.
  apply (component_keys_core_then_groups
           (schema := Demo.schema) ligand_rxn (PStr "ds-a")
           (r := ligand_record) (Permutation_refl CORE_CATEGORIES));
    reflexivity.
Defined.

Lemma failed_role_lookup_gives_unknown_witness :
  ReactionRole_Name 9 = Raise (Exn ValueError
      "Enum ReactionRoleType has no name defined for that value") /\
  exists rs',
    component_step CORE_CATEGORIES "amine" odd_role empty_roles = Ok rs' /\
    assoc_get rs' "amine" = Some [comp_data "NCC" "UNKNOWN"].
Proof.
  split; [reflexivity|].
  assert (Hk : keys_present CORE_CATEGORIES empty_roles).
  { intros k Hin. simpl in Hin.
    repeat (destruct Hin as [<-|Hin]; [vm_compute; discriminate|]).
    destruct Hin. }
  assert (Hne : "NCC" <> EmptyString) by discriminate.
  assert (Hrole : @importable Demo.schema = false \/
                  (exists e, @reaction_role Demo.schema odd_role = Raise e) \/
                  (exists role e,
                      @reaction_role Demo.schema odd_role = Ok role /\
                      @ReactionRole_Name Demo.schema role = Raise e)).
  { right. right. eexists _, _. split; reflexivity. }
  eexists. split.
  - exact (failed_role_lookup_gives_unknown
             (schema := Demo.schema) "amine" odd_role Hk
             (eq_refl : @extract_identifiers Demo.schema odd_role = Ok "NCC")
             Hne Hrole).
  - reflexivity.
Defined.

Lemma extractor_raises_only_without_reaction_id_witness :
  @extract_reaction_data CORE_CATEGORIES schema_noid Demo.unicode ligand_rxn (PStr "ds-a")
  = Raise (Exn AttributeError "'str' object has no attribute 'value'") /\
  @reaction_id_value schema_noid ligand_rxn
  = Raise (Exn AttributeError "'str' object has no attribute 'value'").
Proof.
  split; [reflexivity|].
  apply (proj1 (extractor_raises_only_without_reaction_id
                  CORE_CATEGORIES (schema := schema_noid)
                  ligand_rxn (PStr "ds-a"))).
  reflexivity.
Defined.

Lemma poller_times_out_witness :
  snd (fetch_query_result service_not_ready msg "t" w0)
  = Raise (timeout_error "t").
Proof.
  assert (H : forall log, exists d resp,
               service_not_ready (poll_request "t" :: log) = (d, Responded resp) /\
               pending resp = true).
  { intros log. eexists _, _. split; reflexivity. }
  exact (proj1 (poller_times_out service_not_ready msg "t" w0 H)).
Defined.

Lemma poller_waits_out_pending_witness :
  polling_time [25%positive] < REACTION_TIMEOUT_S * 1000 /\
  fetch_query_result service_400_then_200 msg "t" w0
  = (mkWorld 2050 [poll_request "t"; poll_request "t"], Ok (PList [])).
Proof.
  split; [reflexivity|].
  assert (Hp : forall k dk,
             nth_error [25%positive] k = Some dk ->
             exists r,
               service_400_then_200 (repeat (poll_request "t") (S k) ++ sent w0)
               = (dk, Responded r) /\ pending r = true).
  { intros k dk H. destruct k as [|k]; simpl in H.
    - injection H as <-. eexists. split; reflexivity.
    - destruct k; discriminate. }
  exact (poller_waits_out_pending
           service_400_then_200 msg "t" w0 [25%positive]
           (d := 25%positive) (final := mkResponse 200 "[]" (Ok (PList [])))
           Hp eq_refl eq_refl eq_refl).
Defined.

Lemma submit_query_one_request_witness :
  snd (submit_query service_ok msg (PStr "ds-a") (PInt 5) w0) = Ok "task-a" /\
  head_is (Ascii.eqb PyStr.quote) "task-a" = false /\
  last_is (Ascii.eqb PyStr.quote) "task-a" = false.
Proof.
  split; [reflexivity|].
  exact (proj2 (proj2 (submit_query_one_request
                         service_ok msg (PStr "ds-a") (PInt 5) w0))
               "task-a" eq_refl).
Defined.

Lemma refused_query_is_not_polled_witness :
  400 <= 500 < 600 /\
  dataset_try service_down msg CORE_CATEGORIES 5 (PStr "ds-a") (PInt 7) [] w0
  = (mkWorld 25 [submit_request (PStr "ds-a") (PInt 5)],
     ([], Raise (Exn HTTPError "500 Error"))).
Proof.
  assert (Hrange : 400 <= 500 < 600) by lia.
  split; [exact Hrange|].
  exact (proj1 (refused_query_is_not_polled
                  service_down msg CORE_CATEGORIES (schema := Demo.schema)
                  (Some 1) 5 ds_a [ds_b] [] 0 w0
                  (d := 25%positive)
                  (resp := mkResponse 500 "Internal Server Error" no_json)
                  eq_refl eq_refl eq_refl eq_refl Hrange)).
Defined.

Lemma allow_list_selects_by_id_witness :
  Forall (fun d => is_dict d = true) [ds_a; ds_b] /\
  select_datasets (PList [ds_a; ds_b]) (Some ["ds-b"; "ds-z"]) = Ok (PList [ds_b]).
Proof.
  assert (Hd : Forall (fun d => is_dict d = true) [ds_a; ds_b])
    by (repeat constructor).
  split; [exact Hd|].
  exact (proj1 allow_list_selects_by_id [ds_a; ds_b] "ds-b" ["ds-z"] Hd).
Defined.

Lemma envelope_without_payload_skipped_witness :
  assoc_get without_payload "proto" = None /\
  items_loop CORE_CATEGORIES [with_payload; PDict without_payload; with_payload]
             (PStr "ds-a") []
  = items_loop CORE_CATEGORIES [with_payload; with_payload] (PStr "ds-a") [].
Proof.
  split; [reflexivity|].
  exact (envelope_without_payload_skipped
           CORE_CATEGORIES (schema := Demo.schema) without_payload
           [with_payload] [with_payload] (PStr "ds-a") []
           (or_introl eq_refl)).
Defined.

Lemma records_in_envelope_order_witness :
  items_loop CORE_CATEGORIES [with_payload; PDict without_payload]
             (PStr "ds-a") []
  = ([] ++ somes [Some ligand_record; None], Ok tt).
Proof.
  assert (H : Forall2 (fun item o =>
                         @item_step CORE_CATEGORIES Demo.schema Demo.unicode item (PStr "ds-a")
                         = Ok o)
                      [with_payload; PDict without_payload]
                      [Some ligand_record; None]).
  { constructor; [vm_compute; reflexivity|].
    constructor; [reflexivity|constructor]. }
  exact (records_in_envelope_order
           CORE_CATEGORIES (schema := Demo.schema) (PStr "ds-a") [] H).
Defined.

Lemma missing_schema_library_ends_run_witness :
  @importable schema_missing = false /\
  @items_loop CORE_CATEGORIES schema_missing Demo.unicode
              [PDict without_payload; with_payload; with_payload] (PStr "ds-a") []
  = ([], Abort 1).
Proof.
  split; [reflexivity|].
  assert (Hpre : Forall (fun it =>
                           @item_step CORE_CATEGORIES schema_missing Demo.unicode it (PStr "ds-a")
                           = Ok None)
                        [PDict without_payload])
    by (repeat constructor).
  exact (proj1 (missing_schema_library_ends_run
                  service_ok msg CORE_CATEGORIES (schema := schema_missing)
                  eq_refl)
               [PDict without_payload] with_payload [with_payload]
               (PStr "bGlnYW5k") (PStr "ds-a") [] Hpre eq_refl eq_refl).
Defined.

Lemma nonpositive_max_datasets_scrapes_nothing_witness :
  main_max_datasets ids_args = Some 0 /\
  datasets_loop service_ok msg CORE_CATEGORIES (Some 0) 5 [ds_a; ds_b] [] 0 w0
  = (w0, Ok ([], 0)).
Proof.
  assert (Hm : 0 <= 0) by lia.
  assert (H : datasets_loop service_ok msg CORE_CATEGORIES (Some 0) 5
                            [ds_a; ds_b] [] 0 w0
              = (w0, Ok ([], 0))) by reflexivity.
  split; [|exact H].
  exact (proj2 (nonpositive_max_datasets_scrapes_nothing
                  service_ok msg CORE_CATEGORIES (schema := Demo.schema)
                  5 [ds_a; ds_b] w0 Hm H)
               ids_args eq_refl eq_refl).
Defined.

Lemma parsed_ids_are_stripped_witness :
  main_ds_ids padded_ids_args = Some ["ds-a"; "ds-b"] /\
  exists arg,
    arg_dataset_ids padded_ids_args = Some arg /\
    Forall (fun s => s <> EmptyString /\
                     starts_white s = false /\ ends_white s = false /\
                     exists pre post,
                       white pre /\ white post /\
                       In (pre ++ s ++ post)%string (PyStr.split_on "," arg))
           ["ds-a"; "ds-b"].
Proof.
  split; [reflexivity|].
  exact (parsed_ids_are_stripped padded_ids_args eq_refl).
Defined.

Lemma dataset_list_failure_is_fatal_witness :
  scrape_ord_advanced service_offline msg CORE_CATEGORIES (Some 2) 5 None w0
  = (mkWorld 25 [datasets_request], Raise offline).
Proof.
  exact (proj1 (dataset_list_failure_is_fatal
                  service_offline msg CORE_CATEGORIES (schema := Demo.schema)
                  (Some 2) 5 None w0)
               25%positive offline eq_refl).
Defined.

Lemma run_takes_a_second_per_dataset_witness :
  1000 * (Z.of_nat (List.length (submitted down_world))
          - Z.of_nat (List.length (submitted w0)))
  <= clock down_world - clock w0.
Proof.
  exact (run_takes_a_second_per_dataset
           service_down msg CORE_CATEGORIES (schema := Demo.schema)
           (Some 1) 5 [ds_a; ds_b] [] 0 w0 service_down_run).
Defined.

Lemma output_grouped_by_dataset_witness :
  datasets_loop service_ok msg CORE_CATEGORIES (Some 1) 5 [ds_a; ds_b] [] 0 w0
  = (ok_world, Ok (ok_out, 1)) /\
  exists k counts more,
    ok_out = [] ++ more /\
    (k <= 2)%nat /\
    List.length counts = k /\
    submitted ok_world = submitted w0 ++ map dataset_id_of (firstn k [ds_a; ds_b]) /\
    map record_dataset_id more = grouped_ids (firstn k [ds_a; ds_b]) counts.
Proof.
  assert (H : datasets_loop service_ok msg CORE_CATEGORIES (Some 1) 5
                            [ds_a; ds_b] [] 0 w0
              = (ok_world, Ok (ok_out, 1))) by (vm_compute; reflexivity).
  split; [exact H|].
  exact (output_grouped_by_dataset
           service_ok msg CORE_CATEGORIES (schema := Demo.schema)
           (Some 1) 5 [ds_a; ds_b] [] 0 w0 H).
Defined.
